(** * av1transcoder.argument_parser: constrained scalars, crop values and
      the post-parse derivation of [parse_args]

    A shallow embedding of [src/av1transcoder/argument_parser.py].

    - Python [int] is unbounded, so it is [Z].
    - Python [float] is IEEE 754 binary64; it is [spec_float] (sign, mantissa,
      exponent, with zeros, infinities and NaN), compared with [SFltb] and
      [SFleb], which return [false] on NaN as Python's [<] and [<=] do.
    - A call that may raise returns [Py.result]; exceptions are values.
    - [itertools.chain], [itertools.repeat] and the list iterator are states
      of a small machine with a [next] function ([None] is [StopIteration]).
    - The object returned by [ArgumentParser.parse_args()] is the argument of
      [parse_args] below: the tokenising done by [argparse] is outside the
      embedding. *)

From Stdlib Require Import ZArith List Ascii String Bool Lia.
From Stdlib Require Import QArith Qpower.
From Stdlib Require Import Floats.SpecFloat.
Import ListNotations.

Open Scope string_scope.
Open Scope list_scope.
Open Scope Z_scope.

(* ================================================================== *)
(** ** Python values, exceptions and the error monad                   *)
(* ================================================================== *)

Module Py.

(** The pieces of an f-string: literal text and interpolated numbers. *)
Inductive fpiece : Type :=
| Lit (s : string)
| IntArg (n : Z)
| FloatArg (f : spec_float).

Inductive exn : Type :=
| ValueError (msg : list fpiece)
| TypeError
| IndexError.

Inductive result (A : Type) : Type :=
| Ok (v : A)
| Raise (e : exn).

Arguments Ok {A} v.
Arguments Raise {A} e.

Definition bind {A B : Type} (r : result A) (k : A -> result B) : result B :=
  match r with
  | Ok v => k v
  | Raise e => Raise e
  end.

Definition succeeds {A : Type} (r : result A) : Prop := exists v, r = Ok v.

Definition raises {A : Type} (r : result A) : Prop := exists e, r = Raise e.

(** A list comprehension [[f(x) for x in xs]]: left to right, the first
    exception escapes. *)
Fixpoint comprehension {A B : Type} (f : A -> result B) (xs : list A)
  : result (list B) :=
  match xs with
  | [] => Ok []
  | x :: xs' =>
      bind (f x) (fun y =>
      bind (comprehension f xs') (fun ys => Ok (y :: ys)))
  end.

(** [l[i]] for a list: a negative index counts from the end, an index out
    of range raises [IndexError]. *)
Definition getitem {A : Type} (l : list A) (i : Z) : result A :=
  let len := Z.of_nat (List.length l) in
  let j := if i <? 0 then i + len else i in
  if (j <? 0) || (len <=? j) then Raise IndexError
  else match nth_error l (Z.to_nat j) with
       | Some x => Ok x
       | None => Raise IndexError
       end.

(** Truth value of a list: [if l:] holds when [l] is not empty. *)
Definition truthy {A : Type} (l : list A) : bool :=
  match l with
  | [] => false
  | _ :: _ => true
  end.

End Py.

Import Py.

Notation "x <- c1 ;; c2" := (Py.bind c1 (fun x => c2))
  (at level 61, c1 at next level, right associativity).

(* ================================================================== *)
(** ** itertools                                                       *)
(* ================================================================== *)

Module itertools.

(** Iterator states.  [list_iterator l] holds the elements not yet
    returned; [repeat x None] is [repeat(x)], [repeat x (Some n)] is
    [repeat(x, times=n)] with [n] elements left; [chain a b] is
    [chain(a, b)] while [a] is being consumed. *)
Inductive iter (A : Type) : Type :=
| list_iterator (l : list A)
| repeat (x : A) (times : option nat)
| chain (a b : iter A).

Arguments list_iterator {A} l.
Arguments repeat {A} x times.
Arguments chain {A} a b.

(** [next(it)]: the element and the following state, [None] for
    [StopIteration].  When the first iterable of a chain is exhausted the
    chain drops it and goes on as the second one. *)
Fixpoint next {A : Type} (it : iter A) : option (A * iter A) :=
  match it with
  | list_iterator [] => None
  | list_iterator (x :: l) => Some (x, list_iterator l)
  | repeat x None => Some (x, repeat x None)
  | repeat x (Some O) => None
  | repeat x (Some (S n)) => Some (x, repeat x (Some n))
  | chain a b =>
      match next a with
      | Some (x, a') => Some (x, chain a' b)
      | None => next b
      end
  end.

(** [list(islice(it, n))]: at most [n] elements from the front. *)
Fixpoint islice {A : Type} (it : iter A) (n : nat) : list A :=
  match n with
  | O => []
  | S n' =>
      match next it with
      | Some (x, it') => x :: islice it' n'
      | None => []
      end
  end.

(** The state after [n] calls of [next] ([None] once exhausted). *)
Fixpoint advance {A : Type} (it : iter A) (n : nat) : option (iter A) :=
  match n with
  | O => Some it
  | S n' =>
      match next it with
      | Some (_, it') => advance it' n'
      | None => None
      end
  end.

(** The element returned by the [i]-th call of [next], counting from 0. *)
Definition item {A : Type} (it : iter A) (i : nat) : option A :=
  match advance it i with
  | Some it' => option_map fst (next it')
  | None => None
  end.

(** [list(zip(xs, it))]: pairs until either side is exhausted. *)
Fixpoint zip {A B : Type} (xs : list B) (it : iter A) : list (B * A) :=
  match xs with
  | [] => []
  | b :: xs' =>
      match next it with
      | Some (a, it') => (b, a) :: zip xs' it'
      | None => []
      end
  end.

(** [it] returns exactly the elements of [l], in order, and then stops. *)
Inductive yields {A : Type} : iter A -> list A -> Prop :=
| yields_stop : forall it, next it = None -> yields it []
| yields_item : forall it x it' l,
    next it = Some (x, it') -> yields it' l -> yields it (x :: l).

End itertools.

(* ================================================================== *)
(** ** Constrained scalar types                                        *)
(* ================================================================== *)

(** [class NonNegativeInt(int)]: [__new__] builds the [int] and raises
    [ValueError] when it is below zero. *)
Definition NonNegativeInt (n : Z) : result Z :=
  let new := n in
  if new <? 0 then
    Raise (ValueError [Lit "Invalid number. Expected a non-negative integer. Got ";
                       IntArg new; Lit "."])
  else Ok new.

(** [class PositiveInt(int)]: zero is refused too. *)
Definition PositiveInt (n : Z) : result Z :=
  let new := n in
  if new <=? 0 then
    Raise (ValueError [Lit "Invalid number. Expected a positive integer. Got ";
                       IntArg new; Lit "."])
  else Ok new.

(** The [int] literals [0] and [1] as binary64 values. *)
Definition float_0 : spec_float := S754_zero false.
Definition float_1 : spec_float := S754_finite false 4503599627370496 (-52).

(** [0 < new <= 1] on floats: both comparisons are false on NaN. *)
Definition in_unit_interval (new : spec_float) : bool :=
  SFltb float_0 new && SFleb new float_1.

(** [class NormalizedFloat(float)]. *)
Definition NormalizedFloat (f : spec_float) : result spec_float :=
  let new := f in
  if negb (in_unit_interval new) then
    Raise (ValueError
             [Lit "Invalid number. Expected a floating point value in the interval (0, 1]. Got ";
              FloatArg new; Lit "."])
  else Ok new.

(* ================================================================== *)
(** ** CropValues                                                      *)
(* ================================================================== *)

(** [class CropValues(NamedTuple)].  The field annotations are not checked
    when an instance is built, so the fields are plain integers. *)
Record CropValues : Type := mkCropValues {
  top : Z;
  bottom : Z;
  left : Z;
  right : Z
}.

Definition crop_height (self : CropValues) : Z := top self + bottom self.

Definition crop_width (self : CropValues) : Z := left self + right self.

(** [CropValues( *values )]: the generated [__new__] takes exactly four
    positional arguments; any other number raises [TypeError]. *)
Definition CropValues_star (values : list Z) : result CropValues :=
  match values with
  | [t; b; l; r] => Ok (mkCropValues t b l r)
  | _ => Raise TypeError
  end.

(** The contents of a binary64 value as a rational number (0 for the values
    that are not finite), to read [0 < f <= 1] as a statement on numbers. *)
Definition is_finite (f : spec_float) : bool :=
  match f with
  | S754_zero _ | S754_finite _ _ _ => true
  | S754_infinity _ | S754_nan => false
  end.

Definition float_value (f : spec_float) : Q :=
  match f with
  | S754_finite s m e =>
      ((if s then inject_Z (-1) else inject_Z 1) * inject_Z (Zpos m) * 2 ^ e)%Q
  | _ => 0%Q
  end.

(** A well-formed binary64 value: 53 bits of precision, exponents below 1024,
    the mantissa in canonical form. *)
Definition binary64 (f : spec_float) : Prop := valid_binary 53 1024 f = true.

(* ================================================================== *)
(** ** The values of a --crop occurrence                               *)
(* ================================================================== *)

(** What [type=NonNegativeInt] of [--crop] amounts to on the argument values
    of one occurrence: [[NonNegativeInt(v) for v in values]], left to right,
    ended by the first [ValueError] (which the parser reports as a usage
    error before it exits).  The values are those of the argument strings
    that the parser hands to the type.  Which strings it hands over is the
    parser's matter and no part of this embedding: the schema declares the
    option [-1], so the parser reads a string of the form [-3] as an option
    string and the occurrence fails on its number of arguments before the
    type is called; a negative value reaches the type from an argument
    string such as [" -3"]. *)
Definition NonNegativeInt_each (values : list Z) : result (list Z) :=
  comprehension NonNegativeInt values.

(** [CropValues( *values )] on the converted values: the crop specification
    that [parse_args] packs for an occurrence whose four argument values are
    [t], [b], [l] and [r]. *)
Definition CropValues_from_arguments (t b l r : Z) : result CropValues :=
  values <- NonNegativeInt_each [t; b; l; r] ;;
  CropValues_star values.

(* ================================================================== *)
(** ** Namespace and parse_args                                        *)
(* ================================================================== *)

(** The attributes that the argument parser sets.  [crop_values] changes its
    type in [parse_args], so the record takes that type as a parameter.
    ([max_scene_length] of the [Namespace] class has no option: its
    [add_argument] is commented out.) *)
Record Namespace (C : Type) : Type := mkNamespace {
  input_files : list string;
  output_dir : option string;
  temp_dir : option string;
  keep_temp : bool;
  force_overwrite : bool;
  scene_cut_threshold : spec_float;
  min_scene_length : Z;
  enable_single_pass_encode : bool;
  encoder_parameters : string;
  global_parameters : string;
  max_concurrent_encodes : Z;
  deinterlace : bool;
  dump_commands : string;
  limit_encodes : option Z;
  crop_values : C;
  verbose : bool;
  cutelog_integration : bool;
  ffmpeg : string;
  ffprobe : string;
  ffmpeg_base : option string
}.

Arguments mkNamespace {C}.
Arguments input_files {C}.
Arguments output_dir {C}.
Arguments temp_dir {C}.
Arguments keep_temp {C}.
Arguments force_overwrite {C}.
Arguments scene_cut_threshold {C}.
Arguments min_scene_length {C}.
Arguments enable_single_pass_encode {C}.
Arguments encoder_parameters {C}.
Arguments global_parameters {C}.
Arguments max_concurrent_encodes {C}.
Arguments deinterlace {C}.
Arguments dump_commands {C}.
Arguments limit_encodes {C}.
Arguments crop_values {C}.
Arguments verbose {C}.
Arguments cutelog_integration {C}.
Arguments ffmpeg {C}.
Arguments ffprobe {C}.
Arguments ffmpeg_base {C}.

(** What the parser returns: every [--crop] occurrence as the list of its
    values. *)
Definition RawNamespace : Type := Namespace (list (list Z)).

(** [Union[Iterable[CropValues], Iterable[None]]]; [None] is the only value
    of its type, so it is [tt]. *)
Inductive crop_iterable : Type :=
| Iterable_CropValues (it : itertools.iter CropValues)
| Iterable_None (it : itertools.iter unit).

(** [args.keep_temp = v] *)
Definition set_keep_temp {C : Type} (args : Namespace C) (v : bool) : Namespace C :=
  mkNamespace (input_files args) (output_dir args) (temp_dir args) v
    (force_overwrite args) (scene_cut_threshold args) (min_scene_length args)
    (enable_single_pass_encode args) (encoder_parameters args)
    (global_parameters args) (max_concurrent_encodes args) (deinterlace args)
    (dump_commands args) (limit_encodes args) (crop_values args) (verbose args)
    (cutelog_integration args) (ffmpeg args) (ffprobe args) (ffmpeg_base args).

(** [args.crop_values = v] *)
Definition set_crop_values {C D : Type} (args : Namespace C) (v : D) : Namespace D :=
  mkNamespace (input_files args) (output_dir args) (temp_dir args) (keep_temp args)
    (force_overwrite args) (scene_cut_threshold args) (min_scene_length args)
    (enable_single_pass_encode args) (encoder_parameters args)
    (global_parameters args) (max_concurrent_encodes args) (deinterlace args)
    (dump_commands args) (limit_encodes args) v (verbose args)
    (cutelog_integration args) (ffmpeg args) (ffprobe args) (ffmpeg_base args).

Definition is_not_None {A : Type} (o : option A) : bool :=
  match o with
  | Some _ => true
  | None => false
  end.

(** [parse_args], from the result of [_generate_argument_parser().parse_args()]
    on. *)
Definition parse_args (parsed : RawNamespace) : result (Namespace crop_iterable) :=
  let args := parsed in
  let args :=
    if negb (dump_commands args =? "no")%string || is_not_None (limit_encodes args)
    then set_keep_temp args true
    else args in
  crop_values <- comprehension CropValues_star (crop_values args) ;;
  if truthy crop_values then
    last <- getitem crop_values (-1) ;;
    Ok (set_crop_values args
          (Iterable_CropValues
             (itertools.chain (itertools.list_iterator crop_values)
                              (itertools.repeat last None))))
  else
    Ok (set_crop_values args
          (Iterable_None
             (itertools.repeat tt (Some (List.length (input_files args)))))).

(** The state of [args] after the [keep_temp] assignment of [parse_args]. *)
Definition implied_keep_temp (parsed : RawNamespace) : RawNamespace :=
  if negb (dump_commands parsed =? "no")%string || is_not_None (limit_encodes parsed)
  then set_keep_temp parsed true
  else parsed.

(** The four values of one [--crop] occurrence that packs into [c]. *)
Definition tuple_of (c : CropValues) : list Z :=
  [top c; bottom c; left c; right c].

(** [0.3], the default of [--scene-cut-threshold], as a binary64 value. *)
Definition float_0_3 : spec_float := S754_finite false 5404319552844595 (-54).

(** The parse result for a command line that gives only input files and
    [--crop] occurrences: every other attribute has the default of its
    [add_argument]. *)
Definition parser_defaults (files : list string) (crops : list (list Z))
  : RawNamespace :=
  {| input_files := files;
     output_dir := None;
     temp_dir := None;
     keep_temp := false;
     force_overwrite := false;
     scene_cut_threshold := float_0_3;
     min_scene_length := 30;
     enable_single_pass_encode := false;
     encoder_parameters :=
       "-pix_fmt yuv420p10le -cpu-used 4 -crf 15 -frame-parallel 0 -threads 1 -auto-alt-ref 1 -lag-in-frames 8 -enable-cdef 1 -enable-global-motion 1 -enable-intrabc 1";
     global_parameters := EmptyString;
     max_concurrent_encodes := 8;
     deinterlace := false;
     dump_commands := "no";
     limit_encodes := None;
     crop_values := crops;
     verbose := false;
     cutelog_integration := false;
     ffmpeg := "ffmpeg";
     ffprobe := "ffprobe";
     ffmpeg_base := None |}.

(** The explicit indexing function of the design notes:
    [crop_for(i) = specs[min(i, len(specs)-1)]]. *)
Definition crop_for (specs : list CropValues) (i : nat) : result CropValues :=
  getitem specs (Z.min (Z.of_nat i) (Z.of_nat (List.length specs) - 1)).

(** A parse result as the parser builds it: every [--crop] occurrence holds
    four values. *)
Definition four_values (parsed : RawNamespace) : Prop :=
  Forall (fun values => List.length values = 4%nat) (crop_values parsed).

(** A well-formed parse result: four [NonNegativeInt] per [--crop], and at
    least one input file ([nargs="+"]). *)
Definition well_formed (parsed : RawNamespace) : Prop :=
  Forall (fun values =>
            List.length values = 4%nat /\
            Forall (fun n => NonNegativeInt n = Ok n) values)
         (crop_values parsed)
  /\ input_files parsed <> [].

(* ================================================================== *)
(** ** The option schema                                               *)
(* ================================================================== *)

Module argparse.

(** The [action=] of an [add_argument] call. *)
Inductive action : Type :=
| store
| store_true
| append
| version.

(** The [type=] callables that the schema uses. *)
Inductive type_callable : Type :=
| type_Path
| type_NormalizedFloat
| type_PositiveInt
| type_NonNegativeInt.

(** The [nargs=] forms that the schema uses. *)
Inductive nargs : Type :=
| nargs_plus
| nargs_exactly (n : nat).

(** The [default=] values that the schema writes. *)
Inductive default_value : Type :=
| default_str (s : string)
| default_int (n : Z)
| default_float (f : spec_float)
| default_list (l : list (list Z))
| default_None.

(** One [parser.add_argument(...)] call, without its help text and
    metavar. *)
Record argument : Type := mkArgument {
  name_or_flags : list string;
  arg_action : action;
  arg_dest : option string;
  arg_type : option type_callable;
  arg_nargs : option nargs;
  arg_default : option default_value;
  arg_choices : option (list string)
}.

(** [s.lstrip("-")] *)
Fixpoint lstrip_dash (s : string) : string :=
  match s with
  | String "-"%char s' => lstrip_dash s'
  | _ => s
  end.

(** [s.replace("-", "_")] *)
Fixpoint replace_dash (s : string) : string :=
  match s with
  | EmptyString => EmptyString
  | String c s' =>
      String (if Ascii.eqb c "-"%char then "_"%char else c) (replace_dash s')
  end.

(** An option string starts with the prefix character; a long one has it
    twice. *)
Definition is_option_string (s : string) : bool :=
  match s with
  | String "-"%char _ => true
  | _ => false
  end.

Definition is_long_option_string (s : string) : bool :=
  match s with
  | String "-"%char (String "-"%char _) => true
  | _ => false
  end.

(** The attribute name of an argument: the given [dest], the name of a
    positional, or else the first long option string (the first option
    string when none is long) without its leading dashes and with the other
    dashes as underscores. *)
Definition get_dest (a : argument) : string :=
  match arg_dest a with
  | Some d => d
  | None =>
      match name_or_flags a with
      | [] => EmptyString
      | first :: _ =>
          if is_option_string first then
            match filter is_long_option_string (name_or_flags a) with
            | long :: _ => replace_dash (lstrip_dash long)
            | [] => replace_dash (lstrip_dash first)
            end
          else first
      end
  end.

(** The [version] action prints and exits; every other action of the schema
    leaves an attribute in the namespace, set from the command line or from
    the default. *)
Definition sets_attribute (a : argument) : bool :=
  match arg_action a with
  | version => false
  | _ => true
  end.

(** The attributes of the namespace that a parser with these arguments
    returns. *)
Definition attributes (schema : list argument) : list string :=
  map get_dest (filter sets_attribute schema).

(** The option strings that a parser with these arguments accepts. *)
Definition option_strings (schema : list argument) : list string :=
  filter is_option_string (flat_map name_or_flags schema).

End argparse.

(** [_generate_argument_parser]: the [add_argument] calls, in order. *)
Definition _generate_argument_parser : list argparse.argument :=
  let arg := argparse.mkArgument in
  let store := argparse.store in
  let store_true := argparse.store_true in
  [ arg ["input_files"] store None (Some argparse.type_Path)
        (Some argparse.nargs_plus) None None;
    arg ["-o"; "--output-dir"] store None (Some argparse.type_Path) None None None;
    arg ["-t"; "--temp-dir"] store None (Some argparse.type_Path) None None None;
    arg ["-k"; "--keep-temp"] store_true None None None None None;
    arg ["-f"; "--force-overwrite"] store_true None None None None None;
    arg ["-s"; "--scene-cut-threshold"] store None
        (Some argparse.type_NormalizedFloat) None
        (Some (argparse.default_float float_0_3)) None;
    arg ["-m"; "--min-scene-length"] store None
        (Some argparse.type_PositiveInt) None
        (Some (argparse.default_int 30)) None;
    arg ["-1"; "--single-pass"] store_true (Some "enable_single_pass_encode")
        None None None None;
    arg ["--crop"] argparse.append (Some "crop_values")
        (Some argparse.type_NonNegativeInt) (Some (argparse.nargs_exactly 4))
        (Some (argparse.default_list [])) None;
    arg ["-e"; "--encoder-parameters"] store None None None
        (Some (argparse.default_str
                 "-pix_fmt yuv420p10le -cpu-used 4 -crf 15 -frame-parallel 0 -threads 1 -auto-alt-ref 1 -lag-in-frames 8 -enable-cdef 1 -enable-global-motion 1 -enable-intrabc 1"))
        None;
    arg ["-g"; "--global-parameters"] store None None None
        (Some (argparse.default_str EmptyString)) None;
    arg ["-c"; "--max-concurrent-encodes"] store None
        (Some argparse.type_PositiveInt) None
        (Some (argparse.default_int 8)) None;
    arg ["--dump-commands"] store None None None
        (Some (argparse.default_str "no")) (Some ["yes"; "no"; "only"]);
    arg ["--deinterlace"] store_true None None None None None;
    arg ["-L"; "--limit-encodes"] store None
        (Some argparse.type_PositiveInt) None None None;
    arg ["-v"; "--version"] argparse.version None None None None None;
    arg ["-V"; "--verbose"] store_true None None None None None;
    arg ["--cutelog-integration"] store_true None None None None None;
    arg ["--ffmpeg"] store None None None
        (Some (argparse.default_str "ffmpeg")) None;
    arg ["--ffprobe"] store None None None
        (Some (argparse.default_str "ffprobe")) None;
    arg ["--ffmpeg-base"] store None None None
        (Some argparse.default_None) None ].

(** A default that the schema writes is in the range of the option's type
    (the parser itself converts only defaults that are strings, so a number
    given as a default reaches the namespace unchecked); a default of an
    option with [choices] is one of them. *)
Definition default_in_range (a : argparse.argument) : Prop :=
  match argparse.arg_type a, argparse.arg_default a with
  | Some argparse.type_PositiveInt, Some (argparse.default_int n) =>
      PositiveInt n = Ok n
  | Some argparse.type_NonNegativeInt, Some (argparse.default_int n) =>
      NonNegativeInt n = Ok n
  | Some argparse.type_NonNegativeInt, Some (argparse.default_list l) =>
      Forall (fun values => NonNegativeInt_each values = Ok values) l
  | Some argparse.type_NormalizedFloat, Some (argparse.default_float f) =>
      NormalizedFloat f = Ok f
  | Some argparse.type_PositiveInt, Some (argparse.default_float _)
  | Some argparse.type_PositiveInt, Some (argparse.default_list _)
  | Some argparse.type_NonNegativeInt, Some (argparse.default_float _)
  | Some argparse.type_NormalizedFloat, Some (argparse.default_int _)
  | Some argparse.type_NormalizedFloat, Some (argparse.default_list _) => False
  | _, _ => True
  end
  /\
  match argparse.arg_choices a, argparse.arg_default a with
  | Some choices, Some (argparse.default_str s) => In s choices
  | Some _, Some _ => False
  | _, _ => True
  end.

(** The fields that [class Namespace(NamedTuple)] declares, in order. *)
Definition Namespace_fields : list string :=
  [ "input_files"; "output_dir"; "temp_dir"; "keep_temp"; "force_overwrite";
    "scene_cut_threshold"; "min_scene_length"; "max_scene_length";
    "enable_single_pass_encode"; "encoder_parameters"; "global_parameters";
    "max_concurrent_encodes"; "deinterlace"; "dump_commands"; "limit_encodes";
    "crop_values"; "verbose"; "cutelog_integration"; "ffmpeg"; "ffprobe";
    "ffmpeg_base" ].

(** The attributes of [args] that the body of [parse_args] reads or
    assigns. *)
Definition parse_args_attributes : list string :=
  [ "dump_commands"; "limit_encodes"; "keep_temp"; "crop_values";
    "input_files" ].

(** Decision procedures for lists of names: no repetition, inclusion. *)
Fixpoint names_distinct (l : list string) : bool :=
  match l with
  | [] => true
  | x :: l' => negb (existsb (String.eqb x) l') && names_distinct l'
  end.

Definition names_included (l1 l2 : list string) : bool :=
  forallb (fun x => existsb (String.eqb x) l2) l1.

(** The value that [parse_args] leaves in [keep_temp]. *)
Definition keep_temp_after (parsed : RawNamespace) : bool :=
  if negb (dump_commands parsed =? "no")%string || is_not_None (limit_encodes parsed)
  then true
  else keep_temp parsed.

(* ================================================================== *)
(** ** The error monad and list indexing                               *)
(* ================================================================== *)

Lemma succeeds_not_raises {A : Type} (r : result A) :
  succeeds r -> ~ raises r.
Proof.
  intros [v Hv] [e He]. congruence.
Qed.

Lemma bind_Ok_inv {A B : Type} (r : result A) (k : A -> result B) (b : B) :
  Py.bind r k = Ok b -> exists a, r = Ok a /\ k a = Ok b.
Proof.
  destruct r as [a|e]; simpl; intros H; [eauto | discriminate].
Qed.

Lemma getitem_in_range {A : Type} (l : list A) (i : nat) (d : A) :
  (i < List.length l)%nat -> getitem l (Z.of_nat i) = Ok (nth i l d).
Proof.
  intros Hi.
  assert (Hpos : (Z.of_nat i <? 0) = false) by (apply Z.ltb_ge; lia).
  assert (Hlt : (Z.of_nat (List.length l) <=? Z.of_nat i) = false)
    by (apply Z.leb_gt; lia).
  unfold getitem. cbv zeta. rewrite Hpos. cbv iota. rewrite Hpos, Hlt.
  cbn [orb]. rewrite Nat2Z.id.
  destruct (nth_error l i) as [x|] eqn:Hx.
  - f_equal. symmetry. now apply nth_error_nth.
  - apply nth_error_None in Hx. lia.
Qed.

Lemma getitem_minus_1 {A : Type} (front : list A) (x : A) :
  getitem (front ++ [x]) (-1) = Ok x.
Proof.
  assert (Hlen : List.length (front ++ [x]) = S (List.length front))
    by (rewrite length_app; simpl; lia).
  assert (Hidx : -1 + Z.of_nat (List.length (front ++ [x]))
                 = Z.of_nat (List.length front)) by lia.
  assert (Hpos : (Z.of_nat (List.length front) <? 0) = false)
    by (apply Z.ltb_ge; lia).
  assert (Hlt : (Z.of_nat (List.length (front ++ [x]))
                 <=? Z.of_nat (List.length front)) = false)
    by (apply Z.leb_gt; lia).
  unfold getitem. cbv zeta.
  change (-1 <? 0) with true. cbv iota.
  rewrite Hidx, Hpos, Hlt. cbn [orb].
  rewrite Nat2Z.id, nth_error_app2, Nat.sub_diag by lia.
  reflexivity.
Qed.

Lemma nonempty_snoc {A : Type} (l : list A) :
  l <> [] -> exists front x, l = front ++ [x].
Proof.
  intros Hne. destruct (exists_last Hne) as [front [x Hx]]. eauto.
Qed.

Lemma truthy_snoc {A : Type} (front : list A) (x : A) :
  truthy (front ++ [x]) = true.
Proof.
  destruct front; reflexivity.
Qed.

(* ================================================================== *)
(** ** Iterators                                                       *)
(* ================================================================== *)

Section IteratorFacts.

Context {A : Type}.
Implicit Types (it : itertools.iter A) (l : list A) (x : A) (n : nat).

Lemma islice_repeat_forever x n :
  itertools.islice (itertools.repeat x None) n = List.repeat x n.
Proof.
  induction n as [|n IH]; simpl; [reflexivity | now rewrite IH].
Qed.

Lemma islice_chain_list_repeat l x n :
  itertools.islice
    (itertools.chain (itertools.list_iterator l) (itertools.repeat x None)) n
  = firstn n l ++ List.repeat x (n - List.length l).
Proof.
  revert n. induction l as [|y l IH]; intros [|n]; simpl; try reflexivity.
  - now rewrite islice_repeat_forever.
  - now rewrite IH.
Qed.

Lemma advance_repeat_forever x n :
  itertools.advance (itertools.repeat x None) n = Some (itertools.repeat x None).
Proof.
  induction n as [|n IH]; simpl; [reflexivity | exact IH].
Qed.

Lemma item_chain_list_repeat l x i :
  itertools.item
    (itertools.chain (itertools.list_iterator l) (itertools.repeat x None)) i
  = Some (nth i l x).
Proof.
  unfold itertools.item. revert i.
  induction l as [|y l IH]; intros [|i]; simpl; try reflexivity.
  - now rewrite advance_repeat_forever.
  - apply IH.
Qed.

Lemma yields_repeat_times x n :
  itertools.yields (itertools.repeat x (Some n)) (List.repeat x n).
Proof.
  induction n as [|n IH]; simpl.
  - now apply itertools.yields_stop.
  - now apply itertools.yields_item with (it' := itertools.repeat x (Some n)).
Qed.

Lemma yields_islice it l :
  itertools.yields it l -> forall n, itertools.islice it n = firstn n l.
Proof.
  induction 1 as [it Hstop | it x it' l Hnext _ IH]; intros [|n]; simpl;
    try reflexivity.
  - now rewrite Hstop.
  - now rewrite Hnext, IH.
Qed.

Lemma yields_deterministic it l1 :
  itertools.yields it l1 -> forall l2, itertools.yields it l2 -> l1 = l2.
Proof.
  induction 1 as [it Hstop | it x it' l Hnext _ IH]; intros l2 H2;
    inversion H2; subst; try congruence.
  assert (Heq : (x, it') = (x0, it'0)) by congruence.
  inversion Heq; subst. f_equal. now apply IH.
Qed.

Lemma zip_islice {B : Type} (xs : list B) it :
  map snd (itertools.zip xs it) = itertools.islice it (List.length xs).
Proof.
  revert it. induction xs as [|b xs IH]; intros it; simpl; [reflexivity|].
  destruct (itertools.next it) as [[a it']|]; simpl; [now rewrite IH | reflexivity].
Qed.

End IteratorFacts.

(* ================================================================== *)
(** ** Packing the parsed values                                       *)
(* ================================================================== *)

Lemma CropValues_star_tuple_of (c : CropValues) :
  CropValues_star (tuple_of c) = Ok c.
Proof.
  destruct c; reflexivity.
Qed.

Lemma comprehension_tuple_of (specs : list CropValues) :
  comprehension CropValues_star (map tuple_of specs) = Ok specs.
Proof.
  induction specs as [|c specs IH]; cbn [comprehension map]; [reflexivity|].
  rewrite CropValues_star_tuple_of. cbn [Py.bind]. now rewrite IH.
Qed.

Lemma CropValues_star_four (values : list Z) :
  List.length values = 4%nat -> exists c, values = tuple_of c.
Proof.
  destruct values as [|t [|b [|l [|r [|x values]]]]]; simpl; try discriminate.
  intros _. now exists (mkCropValues t b l r).
Qed.

Lemma four_values_tuples (crops : list (list Z)) :
  Forall (fun values => List.length values = 4%nat) crops ->
  exists specs, crops = map tuple_of specs.
Proof.
  induction 1 as [|values crops Hlen _ [specs IH]].
  - now exists [].
  - destruct (CropValues_star_four values Hlen) as [c Hc].
    exists (c :: specs). simpl. congruence.
Qed.

Lemma well_formed_four_values (parsed : RawNamespace) :
  well_formed parsed -> four_values parsed.
Proof.
  intros [Hcrops _]. unfold four_values.
  eapply Forall_impl; [|exact Hcrops]. now intros values [Hlen _].
Qed.

Lemma implied_keep_temp_crop_values (parsed : RawNamespace) :
  crop_values (implied_keep_temp parsed) = crop_values parsed.
Proof.
  unfold implied_keep_temp. destruct (negb _ || _); reflexivity.
Qed.

Lemma implied_keep_temp_input_files (parsed : RawNamespace) :
  input_files (implied_keep_temp parsed) = input_files parsed.
Proof.
  unfold implied_keep_temp. destruct (negb _ || _); reflexivity.
Qed.

Lemma parse_args_steps (parsed : RawNamespace) :
  parse_args parsed =
    (specs <- comprehension CropValues_star (crop_values parsed) ;;
     if truthy specs then
       last <- getitem specs (-1) ;;
       Ok (set_crop_values (implied_keep_temp parsed)
             (Iterable_CropValues
                (itertools.chain (itertools.list_iterator specs)
                                 (itertools.repeat last None))))
     else
       Ok (set_crop_values (implied_keep_temp parsed)
             (Iterable_None
                (itertools.repeat tt (Some (List.length (input_files parsed))))))).
Proof.
  rewrite <- (implied_keep_temp_crop_values parsed),
          <- (implied_keep_temp_input_files parsed).
  reflexivity.
Qed.

Lemma parse_args_crops (parsed : RawNamespace) (front : list CropValues) (Ck : CropValues) :
  crop_values parsed = map tuple_of (front ++ [Ck]) ->
  parse_args parsed =
    Ok (set_crop_values (implied_keep_temp parsed)
          (Iterable_CropValues
             (itertools.chain (itertools.list_iterator (front ++ [Ck]))
                              (itertools.repeat Ck None)))).
Proof.
  intros Hraw.
  rewrite parse_args_steps, Hraw, comprehension_tuple_of. cbn [Py.bind].
  now rewrite truthy_snoc, getitem_minus_1.
Qed.

Lemma parse_args_no_crop (parsed : RawNamespace) :
  crop_values parsed = [] ->
  parse_args parsed =
    Ok (set_crop_values (implied_keep_temp parsed)
          (Iterable_None
             (itertools.repeat tt (Some (List.length (input_files parsed)))))).
Proof.
  intros Hraw. now rewrite parse_args_steps, Hraw.
Qed.

Lemma parse_args_total (parsed : RawNamespace) :
  four_values parsed ->
  exists c, parse_args parsed = Ok (set_crop_values (implied_keep_temp parsed) c).
Proof.
  intros Hfour. destruct (four_values_tuples _ Hfour) as [specs Hspecs].
  destruct specs as [|c specs].
  - eexists. apply parse_args_no_crop. exact Hspecs.
  - destruct (nonempty_snoc (c :: specs)) as [front [Ck Hsnoc]]; [discriminate|].
    rewrite Hsnoc in Hspecs. eexists. apply parse_args_crops. exact Hspecs.
Qed.

(* ================================================================== *)
(** ** Lists that end by repeating one element                         *)
(* ================================================================== *)

Section TailRepetition.

Context {A : Type}.
Variables (specs : list A) (x : A) (N : nat).

Lemma tail_repetition_length :
  List.length (firstn N specs ++ List.repeat x (N - List.length specs)) = N.
Proof.
  rewrite length_app, length_firstn, repeat_length. lia.
Qed.

Lemma tail_repetition_front (i : nat) :
  (i < List.length specs)%nat -> (i < N)%nat ->
  nth_error (firstn N specs ++ List.repeat x (N - List.length specs)) i
  = nth_error specs i.
Proof.
  intros Hk HN.
  rewrite nth_error_app1 by (rewrite length_firstn; lia).
  rewrite nth_error_firstn.
  destruct (Nat.ltb_spec i N); [reflexivity | lia].
Qed.

Lemma tail_repetition_tail (i : nat) :
  (List.length specs <= i < N)%nat ->
  nth_error (firstn N specs ++ List.repeat x (N - List.length specs)) i
  = Some x.
Proof.
  intros Hi.
  rewrite nth_error_app2 by (rewrite length_firstn; lia).
  apply nth_error_repeat. rewrite length_firstn. lia.
Qed.

End TailRepetition.

(* ================================================================== *)
(** ** parse_args: the crop-value sequence                             *)
(* ================================================================== *)

(** C1.  With a non-empty list of crop specifications [front ++ [Ck]] and
    [N] input files, the crop-value iterator that [parse_args] builds, cut
    after [N] elements, has length [N], agrees with the specifications at
    every index below both [k] and [N], and holds the last specification
    [Ck] at every index [i] with [k <= i < N]; with the specifications
    [[C1; C2]] and 5 input files it is [[C1; C2; C2; C2; C2]].  Cutting after
    [N] elements is what pairing with the input files by [zip] does. *)
Theorem parse_args_crop_tail_repetition
  (parsed : RawNamespace) (front : list CropValues) (Ck : CropValues)
  (Hraw : crop_values parsed = map tuple_of (front ++ [Ck])) :
  exists ns it,
    parse_args parsed = Ok ns /\
    crop_values ns = Iterable_CropValues it /\
    itertools.islice it (List.length (input_files parsed))
      = firstn (List.length (input_files parsed)) (front ++ [Ck])
        ++ List.repeat Ck (List.length (input_files parsed)
                           - List.length (front ++ [Ck])) /\
    List.length (itertools.islice it (List.length (input_files parsed)))
      = List.length (input_files parsed) /\
    (forall i : nat,
        (i < List.length (front ++ [Ck]))%nat ->
        (i < List.length (input_files parsed))%nat ->
        nth_error (itertools.islice it (List.length (input_files parsed))) i
        = nth_error (front ++ [Ck]) i) /\
    (forall i : nat,
        (List.length (front ++ [Ck]) <= i < List.length (input_files parsed))%nat ->
        nth_error (itertools.islice it (List.length (input_files parsed))) i
        = Some Ck) /\
    (forall C1 : CropValues,
        front = [C1] -> List.length (input_files parsed) = 5%nat ->
        itertools.islice it (List.length (input_files parsed))
        = [C1; Ck; Ck; Ck; Ck]) /\
    map snd (itertools.zip (input_files parsed) it)
      = itertools.islice it (List.length (input_files parsed)).
Proof.
  eexists. eexists.
  split; [now apply parse_args_crops with (front := front) (Ck := Ck)|].
  split; [reflexivity|].
  rewrite zip_islice, islice_chain_list_repeat.
  split; [reflexivity|].
  split; [apply tail_repetition_length|].
  split; [apply tail_repetition_front|].
  split; [apply tail_repetition_tail|].
  split; [|reflexivity].
  intros C1 -> ->. reflexivity.
Qed.

(** C3.  With no [--crop] occurrence and [N >= 1] input files the crop-value
    iterator returns [None] exactly [N] times and then stops: it is finite,
    of length exactly [N], whatever number of elements is asked for. *)
Theorem parse_args_no_crop_markers
  (parsed : RawNamespace)
  (Hraw : crop_values parsed = [])
  (Hfiles : (1 <= List.length (input_files parsed))%nat) :
  exists ns it,
    parse_args parsed = Ok ns /\
    crop_values ns = Iterable_None it /\
    itertools.yields it (List.repeat tt (List.length (input_files parsed))) /\
    itertools.islice it (List.length (input_files parsed))
      = List.repeat tt (List.length (input_files parsed)) /\
    (forall l : list unit,
        itertools.yields it l -> List.length l = List.length (input_files parsed)) /\
    (forall n : nat,
        (List.length (itertools.islice it n) <= List.length (input_files parsed))%nat).
Proof.
  eexists. eexists.
  split; [now apply parse_args_no_crop|].
  split; [reflexivity|].
  pose proof (yields_repeat_times tt (List.length (input_files parsed))) as Hy.
  split; [exact Hy|].
  split.
  { rewrite (yields_islice _ _ Hy).
    apply firstn_all2. now rewrite repeat_length. }
  split.
  { intros l Hl. rewrite <- (yields_deterministic _ _ Hy _ Hl).
    apply repeat_length. }
  intros n. rewrite (yields_islice _ _ Hy), length_firstn, repeat_length. lia.
Qed.

(** C5.  For a non-empty list of crop specifications [specs] and every
    index [i], the element that the crop-value iterator of [parse_args]
    returns at its [i]-th step is the value of the explicit indexing
    function [crop_for specs i = specs[min(i, len(specs)-1)]]. *)
Theorem parse_args_crop_iterator_is_crop_for
  (parsed : RawNamespace) (specs : list CropValues) (i : nat)
  (Hne : specs <> [])
  (Hraw : crop_values parsed = map tuple_of specs) :
  exists ns it c,
    parse_args parsed = Ok ns /\
    crop_values ns = Iterable_CropValues it /\
    itertools.item it i = Some c /\
    crop_for specs i = Ok c.
Proof.
  destruct (nonempty_snoc specs Hne) as [front [Ck Hsnoc]]. subst specs.
  eexists. eexists. eexists.
  split; [now apply parse_args_crops with (front := front) (Ck := Ck)|].
  split; [reflexivity|].
  split; [apply item_chain_list_repeat|].
  unfold crop_for.
  assert (Hlen : List.length (front ++ [Ck]) = S (List.length front))
    by (rewrite length_app; simpl; lia).
  destruct (Nat.lt_ge_cases i (List.length (front ++ [Ck]))) as [Hlt|Hge].
  - replace (Z.min _ _) with (Z.of_nat i) by lia.
    now apply getitem_in_range.
  - replace (Z.min _ _) with (Z.of_nat (List.length front)) by lia.
    rewrite (getitem_in_range _ _ Ck) by lia.
    f_equal. rewrite app_nth2, Nat.sub_diag by lia. simpl.
    rewrite nth_overflow by lia. reflexivity.
Qed.

(* ================================================================== *)
(** ** parse_args: implied flags, totality and frame                    *)
(* ================================================================== *)

Lemma implied_keep_temp_forced (parsed : RawNamespace) :
  dump_commands parsed <> "no" \/ (exists p, limit_encodes parsed = Some p) ->
  keep_temp (implied_keep_temp parsed) = true.
Proof.
  intros Hcond. unfold implied_keep_temp.
  destruct (String.eqb_spec (dump_commands parsed) "no") as [Hno|Hother];
    destruct (limit_encodes parsed) as [p|] eqn:Hlimit; try reflexivity.
  destruct Hcond as [Hdump|[p Hp]]; [contradiction | discriminate].
Qed.

(** C2.  When [dump_commands] is not ["no"] or [limit_encodes] is set, the
    namespace that [parse_args] returns has [keep_temp = True], whatever
    [keep_temp] the parser had stored; and [parse_args] does return one for
    every parse result whose [--crop] occurrences hold four values. *)
Theorem parse_args_forces_keep_temp
  (parsed : RawNamespace)
  (Hcond : dump_commands parsed <> "no" \/
           (exists p, PositiveInt p = Ok p /\ limit_encodes parsed = Some p)) :
  (forall ns, parse_args parsed = Ok ns -> keep_temp ns = true) /\
  (four_values parsed -> exists ns, parse_args parsed = Ok ns /\ keep_temp ns = true).
Proof.
  assert (Hforced : keep_temp (implied_keep_temp parsed) = true).
  { apply implied_keep_temp_forced.
    destruct Hcond as [Hdump|[p [_ Hp]]]; [now left | right; eauto]. }
  split.
  - intros ns Hns. rewrite parse_args_steps in Hns.
    apply bind_Ok_inv in Hns. destruct Hns as [specs [_ Hns]].
    destruct (truthy specs).
    + apply bind_Ok_inv in Hns. destruct Hns as [last [_ Hns]].
      inversion Hns; subst. exact Hforced.
    + inversion Hns; subst. exact Hforced.
  - intros Hfour. destruct (parse_args_total parsed Hfour) as [c Hc].
    eexists. split; [exact Hc | exact Hforced].
Qed.

(** C8.  On a well-formed parse result (every [--crop] occurrence four
    [NonNegativeInt], at least one input file) the derivation of
    [parse_args] returns a namespace and raises nothing: packing the
    values into [CropValues] succeeds, and so does [crop_values[-1]]
    whenever the packed list is not empty. *)
Theorem parse_args_never_raises
  (parsed : RawNamespace)
  (Hwf : well_formed parsed) :
  succeeds (parse_args parsed) /\
  (forall e, parse_args parsed <> Raise e) /\
  succeeds (comprehension CropValues_star (crop_values parsed)) /\
  (forall specs,
      comprehension CropValues_star (crop_values parsed) = Ok specs ->
      truthy specs = true ->
      succeeds (getitem specs (-1))).
Proof.
  pose proof (well_formed_four_values parsed Hwf) as Hfour.
  destruct (parse_args_total parsed Hfour) as [c Hc].
  split; [eexists; exact Hc|].
  split; [intros e He; congruence|].
  destruct (four_values_tuples _ Hfour) as [specs Hspecs].
  rewrite Hspecs, comprehension_tuple_of.
  split; [eexists; reflexivity|].
  intros specs' Hsame Htruthy. inversion Hsame; subst specs'.
  destruct specs as [|c0 specs]; [discriminate|].
  destruct (nonempty_snoc (c0 :: specs)) as [front [Ck Hsnoc]]; [discriminate|].
  rewrite Hsnoc, getitem_minus_1. eexists; reflexivity.
Qed.

(** C9.  On a well-formed parse result [parse_args] returns a namespace in
    which every attribute other than [keep_temp] and [crop_values] has the
    value the parser produced. *)
Theorem parse_args_frame
  (parsed : RawNamespace)
  (Hwf : well_formed parsed) :
  exists ns,
    parse_args parsed = Ok ns /\
    input_files ns = input_files parsed /\
    output_dir ns = output_dir parsed /\
    temp_dir ns = temp_dir parsed /\
    force_overwrite ns = force_overwrite parsed /\
    scene_cut_threshold ns = scene_cut_threshold parsed /\
    min_scene_length ns = min_scene_length parsed /\
    enable_single_pass_encode ns = enable_single_pass_encode parsed /\
    encoder_parameters ns = encoder_parameters parsed /\
    global_parameters ns = global_parameters parsed /\
    max_concurrent_encodes ns = max_concurrent_encodes parsed /\
    deinterlace ns = deinterlace parsed /\
    dump_commands ns = dump_commands parsed /\
    limit_encodes ns = limit_encodes parsed /\
    verbose ns = verbose parsed /\
    cutelog_integration ns = cutelog_integration parsed /\
    ffmpeg ns = ffmpeg parsed /\
    ffprobe ns = ffprobe parsed /\
    ffmpeg_base ns = ffmpeg_base parsed.
Proof.
  destruct (parse_args_total parsed (well_formed_four_values parsed Hwf)) as [c Hc].
  eexists. split; [exact Hc|].
  unfold implied_keep_temp.
  destruct (negb _ || _); repeat split; reflexivity.
Qed.

(* ================================================================== *)
(** ** CropValues                                                      *)
(* ================================================================== *)

Lemma NonNegativeInt_Ok (n : Z) : 0 <= n -> NonNegativeInt n = Ok n.
Proof.
  intros Hn. unfold NonNegativeInt. cbv zeta.
  destruct (Z.ltb_spec n 0); [lia | reflexivity].
Qed.

Lemma NonNegativeInt_Raise (n : Z) :
  n < 0 ->
  NonNegativeInt n =
    Raise (ValueError [Lit "Invalid number. Expected a non-negative integer. Got ";
                       IntArg n; Lit "."]).
Proof.
  intros Hn. unfold NonNegativeInt. cbv zeta.
  destruct (Z.ltb_spec n 0); [reflexivity | lia].
Qed.

Lemma NonNegativeInt_Ok_inv (n v : Z) : NonNegativeInt n = Ok v -> v = n /\ 0 <= n.
Proof.
  unfold NonNegativeInt. cbv zeta.
  destruct (Z.ltb_spec n 0) as [Hneg|Hpos]; intros Hv; inversion Hv; subst.
  now split.
Qed.

(** The claim of C6 read on the class itself fails: [CropValues(1, 2, -3, 4)]
    is built, and its [left] is negative. *)
Lemma CropValues_accepts_negative :
  CropValues_star [1; 2; -3; 4] = Ok (mkCropValues 1 2 (-3) 4) /\
  left (mkCropValues 1 2 (-3) 4) < 0.
Proof.
  split; [reflexivity | simpl; lia].
Qed.

Lemma NonNegativeInt_each_Ok (values : list Z) :
  Forall (fun v => 0 <= v) values -> NonNegativeInt_each values = Ok values.
Proof.
  unfold NonNegativeInt_each.
  induction 1 as [|v values Hv _ IH]; cbn [comprehension]; [reflexivity|].
  rewrite (NonNegativeInt_Ok v Hv). cbn [Py.bind]. now rewrite IH.
Qed.

Lemma NonNegativeInt_each_first_negative (pre post : list Z) (n : Z) :
  Forall (fun v => 0 <= v) pre -> n < 0 ->
  NonNegativeInt_each (pre ++ n :: post) = NonNegativeInt_each [n].
Proof.
  intros Hpre Hn. unfold NonNegativeInt_each.
  induction Hpre as [|v pre Hv _ IH]; cbn [comprehension app].
  - rewrite (NonNegativeInt_Raise n Hn). reflexivity.
  - rewrite (NonNegativeInt_Ok v Hv). cbn [Py.bind]. rewrite IH.
    cbn [comprehension]. rewrite (NonNegativeInt_Raise n Hn). reflexivity.
Qed.

(** C6, amended.  The [CropValues] constructor checks nothing: from any four
    values it builds the specification that holds them.  The range check is
    that of [NonNegativeInt], through which the four values pass first, left
    to right: whenever one of them is negative no specification is built,
    and the exception is the [ValueError] that [NonNegativeInt] raises for
    the first negative value; a specification that is built holds the four
    values, and none of them is negative. *)
Theorem CropValues_from_arguments_validates (t b l r : Z) :
  CropValues_star [t; b; l; r] = Ok (mkCropValues t b l r) /\
  (forall (pre post : list Z) (n : Z),
      [t; b; l; r] = pre ++ n :: post ->
      Forall (fun v => 0 <= v) pre -> n < 0 ->
      NonNegativeInt n =
        Raise (ValueError
                 [Lit "Invalid number. Expected a non-negative integer. Got ";
                  IntArg n; Lit "."]) /\
      CropValues_from_arguments t b l r =
        Raise (ValueError
                 [Lit "Invalid number. Expected a non-negative integer. Got ";
                  IntArg n; Lit "."])) /\
  ((t < 0 \/ b < 0 \/ l < 0 \/ r < 0) ->
   exists (pre post : list Z) (n : Z),
     [t; b; l; r] = pre ++ n :: post /\
     Forall (fun v => 0 <= v) pre /\ n < 0 /\
     raises (CropValues_from_arguments t b l r)) /\
  (forall c, CropValues_from_arguments t b l r = Ok c ->
             c = mkCropValues t b l r /\
             0 <= top c /\ 0 <= bottom c /\ 0 <= left c /\ 0 <= right c) /\
  (0 <= t -> 0 <= b -> 0 <= l -> 0 <= r ->
   CropValues_from_arguments t b l r = Ok (mkCropValues t b l r)).
Proof.
  assert (Hfirst : forall (pre post : list Z) (n : Z),
             [t; b; l; r] = pre ++ n :: post ->
             Forall (fun v => 0 <= v) pre -> n < 0 ->
             CropValues_from_arguments t b l r =
               Raise (ValueError
                        [Lit "Invalid number. Expected a non-negative integer. Got ";
                         IntArg n; Lit "."])).
  { intros pre post n Hsplit Hpre Hn. unfold CropValues_from_arguments.
    rewrite Hsplit, (NonNegativeInt_each_first_negative pre post n Hpre Hn).
    unfold NonNegativeInt_each. cbn [comprehension].
    now rewrite (NonNegativeInt_Raise n Hn). }
  split; [reflexivity|]. split; [|split; [|split]].
  - intros pre post n Hsplit Hpre Hn.
    split; [now apply NonNegativeInt_Raise | now apply (Hfirst pre post n)].
  - intros Hneg.
    assert (Hsplit : exists (pre post : list Z) (n : Z),
               [t; b; l; r] = pre ++ n :: post /\
               Forall (fun v => 0 <= v) pre /\ n < 0).
    { destruct (Z.lt_ge_cases t 0) as [Ht|Ht].
      { exists [], [b; l; r], t. repeat split; [constructor | exact Ht]. }
      destruct (Z.lt_ge_cases b 0) as [Hb|Hb].
      { exists [t], [l; r], b. repeat split; [repeat constructor; exact Ht | exact Hb]. }
      destruct (Z.lt_ge_cases l 0) as [Hl|Hl].
      { exists [t; b], [r], l.
        repeat split; [repeat constructor; assumption | exact Hl]. }
      exists [t; b; l], [], r.
      repeat split; [repeat constructor; assumption | lia]. }
    destruct Hsplit as [pre [post [n [Hsplit [Hpre Hn]]]]].
    exists pre, post, n. repeat split; try assumption.
    eexists. now apply (Hfirst pre post n).
  - intros c Hc. unfold CropValues_from_arguments, NonNegativeInt_each in Hc.
    cbn [comprehension] in Hc.
    destruct (NonNegativeInt t) as [t'|] eqn:Et; [|discriminate].
    destruct (NonNegativeInt b) as [b'|] eqn:Eb; [|discriminate].
    destruct (NonNegativeInt l) as [l'|] eqn:El; [|discriminate].
    destruct (NonNegativeInt r) as [r'|] eqn:Er; [|discriminate].
    apply NonNegativeInt_Ok_inv in Et, Eb, El, Er.
    destruct Et as [-> Ht], Eb as [-> Hb], El as [-> Hl], Er as [-> Hr].
    simpl in Hc. inversion Hc; subst. simpl. auto.
  - intros Ht Hb Hl Hr. unfold CropValues_from_arguments.
    rewrite NonNegativeInt_each_Ok by (repeat constructor; assumption).
    reflexivity.
Qed.

(** C7.  For non-negative [t], [b], [l], [r] the crop specification built
    from them exists and has [crop_height = t + b] and
    [crop_width = l + r], both read from the stored fields. *)
Theorem crop_dimensions (t b l r : Z)
  (Ht : 0 <= t) (Hb : 0 <= b) (Hl : 0 <= l) (Hr : 0 <= r) :
  exists c,
    CropValues_from_arguments t b l r = Ok c /\
    CropValues_star [t; b; l; r] = Ok c /\
    top c = t /\ bottom c = b /\ left c = l /\ right c = r /\
    crop_height c = t + b /\
    crop_width c = l + r.
Proof.
  exists (mkCropValues t b l r).
  split.
  { unfold CropValues_from_arguments, NonNegativeInt_each. cbn [comprehension].
    now rewrite !NonNegativeInt_Ok by assumption. }
  repeat split; reflexivity.
Qed.

(** C10.  A crop specification whose four components are [NonNegativeInt]
    values has non-negative [crop_height] and [crop_width]. *)
Theorem crop_dimensions_nonnegative (c : CropValues)
  (Htop : NonNegativeInt (top c) = Ok (top c))
  (Hbottom : NonNegativeInt (bottom c) = Ok (bottom c))
  (Hleft : NonNegativeInt (left c) = Ok (left c))
  (Hright : NonNegativeInt (right c) = Ok (right c)) :
  0 <= crop_height c /\ 0 <= crop_width c.
Proof.
  apply NonNegativeInt_Ok_inv in Htop, Hbottom, Hleft, Hright.
  unfold crop_height, crop_width. lia.
Qed.

(* ================================================================== *)
(** ** Constrained scalar types                                        *)
(* ================================================================== *)

Lemma PositiveInt_Ok (n : Z) : 0 < n -> PositiveInt n = Ok n.
Proof.
  intros Hn. unfold PositiveInt. cbv zeta.
  destruct (Z.leb_spec n 0); [lia | reflexivity].
Qed.

Lemma PositiveInt_Raise (n : Z) :
  n <= 0 ->
  PositiveInt n =
    Raise (ValueError [Lit "Invalid number. Expected a positive integer. Got ";
                       IntArg n; Lit "."]).
Proof.
  intros Hn. unfold PositiveInt. cbv zeta.
  destruct (Z.leb_spec n 0); [reflexivity | lia].
Qed.

(** The number of binary digits of a mantissa. *)
Lemma digits2_pos_bounds (m : positive) :
  2 ^ (Zpos (digits2_pos m) - 1) <= Zpos m < 2 ^ Zpos (digits2_pos m).
Proof.
  induction m as [m IH|m IH|]; cbn [digits2_pos].
  - rewrite Pos2Z.inj_succ.
    replace (Z.succ (Zpos (digits2_pos m)) - 1) with (Z.succ (Zpos (digits2_pos m) - 1)) by lia.
    rewrite !Z.pow_succ_r by lia. lia.
  - rewrite Pos2Z.inj_succ.
    replace (Z.succ (Zpos (digits2_pos m)) - 1) with (Z.succ (Zpos (digits2_pos m) - 1)) by lia.
    rewrite !Z.pow_succ_r by lia. lia.
  - simpl. lia.
Qed.

Lemma Qpower_2_nonpos (e : Z) :
  e <= 0 -> (2 ^ e == / inject_Z (2 ^ (- e)))%Q.
Proof.
  intros He.
  replace e with (- (- e)) at 1 by lia.
  rewrite Qpower_opp, Zpower_Qpower by lia. reflexivity.
Qed.

Lemma Qpower_2_nonneg (e : Z) :
  0 <= e -> (2 ^ e == inject_Z (2 ^ e))%Q.
Proof.
  intros He. rewrite Zpower_Qpower by lia. reflexivity.
Qed.

(** [m * 2^e <= 1] on rationals, as a comparison of integers. *)
Lemma scaled_mantissa_le_1 (m : positive) (e : Z) :
  (inject_Z (Zpos m) * 2 ^ e <= 1)%Q <-> e <= 0 /\ Zpos m <= 2 ^ (- e).
Proof.
  destruct (Z.le_gt_cases e 0) as [He|He].
  - rewrite Qpower_2_nonpos by exact He.
    assert (Hpow : 0 < 2 ^ (- e)) by (apply Z.pow_pos_nonneg; lia).
    destruct (2 ^ (- e)) as [|X|X] eqn:EX; try lia.
    unfold Qle, Qmult, Qinv, inject_Z. simpl. lia.
  - rewrite Qpower_2_nonneg by lia.
    rewrite <- inject_Z_mult.
    change 1%Q with (inject_Z 1). rewrite <- Zle_Qle.
    assert (Hpow : 2 ^ 1 <= 2 ^ e) by (apply Z.pow_le_mono_r; lia).
    change (2 ^ 1) with 2 in Hpow. nia.
Qed.

Lemma scaled_mantissa_pos (m : positive) (e : Z) :
  (0 < inject_Z (Zpos m) * 2 ^ e)%Q.
Proof.
  apply Qmult_lt_0_compat; [reflexivity | now apply Qpower_0_lt].
Qed.

Lemma pow_2_52 : 2 ^ 52 = 4503599627370496.
Proof.
  vm_compute. reflexivity.
Qed.

(** The comparison of two non-negative finite values: exponents first, then
    mantissas. *)
Lemma SFleb_nonnegative (m1 m2 : positive) (e1 e2 : Z) :
  SFleb (S754_finite false m1 e1) (S754_finite false m2 e2) =
  match e1 ?= e2 with
  | Lt => true
  | Gt => false
  | Eq => (m1 <=? m2)%positive
  end.
Proof.
  unfold SFleb, SFcompare, Pos.leb.
  destruct (e1 ?= e2); reflexivity.
Qed.

(** The comparison with [1.0] of a non-negative canonical binary64 value. *)
Lemma SFleb_float_1 (m : positive) (e : Z) :
  bounded 53 1024 m e = true ->
  SFleb (S754_finite false m e) float_1 = true <-> e <= 0 /\ Zpos m <= 2 ^ (- e).
Proof.
  unfold bounded, canonical_mantissa, fexp, emin.
  intros Hb. apply andb_prop in Hb. destruct Hb as [Hcanon Hmax].
  apply Z.eqb_eq in Hcanon. apply Z.leb_le in Hmax.
  pose proof (digits2_pos_bounds m) as [Hlow Hhigh].
  set (d := Zpos (digits2_pos m)) in *.
  assert (Hd : d <= 53) by lia.
  assert (Hm53 : Zpos m < 2 ^ 53).
  { apply Z.lt_le_trans with (2 ^ d); [exact Hhigh|].
    apply Z.pow_le_mono_r; lia. }
  unfold float_1. rewrite SFleb_nonnegative.
  destruct (Z.compare_spec e (-52)) as [Heq|Hlt|Hgt].
  - rewrite Pos2Z.inj_leb, Z.leb_le, Heq. replace (- -52) with 52 by reflexivity.
    rewrite pow_2_52. split; [intros Hle; split; [discriminate | exact Hle] | intros [_ Hle]; exact Hle].
  - split; [intros _ | reflexivity].
    split; [lia|].
    apply Z.lt_le_incl, Z.lt_le_trans with (2 ^ 53); [exact Hm53|].
    apply Z.pow_le_mono_r; lia.
  - split; [discriminate|]. intros [He Hle]. exfalso.
    assert (Hd53 : d = 53) by lia.
    rewrite Hd53 in Hlow. replace (53 - 1) with 52 in Hlow by reflexivity.
    assert (Hpow : 2 ^ (- e) < 2 ^ 52) by (apply Z.pow_lt_mono_r; lia).
    lia.
Qed.

(** [0 < f <= 1] as computed on binary64 values is the comparison of the
    number that [f] stands for. *)
Lemma in_unit_interval_value (f : spec_float) :
  binary64 f ->
  in_unit_interval f = true <->
  is_finite f = true /\ (0 < float_value f)%Q /\ (float_value f <= 1)%Q.
Proof.
  intros Hvalid. destruct f as [s|s| |s m e].
  - split; [destruct s; discriminate|].
    intros [_ [Hpos _]]. simpl in Hpos. discriminate.
  - split; [destruct s; discriminate|]. intros [Hfin _]. discriminate.
  - split; [discriminate|]. intros [Hfin _]. discriminate.
  - destruct s.
    + split; [discriminate|]. intros [_ [Hpos _]]. exfalso.
      cbn [float_value] in Hpos.
      pose proof (scaled_mantissa_pos m e) as Hm.
      revert Hpos Hm. generalize (2 ^ e)%Q. intros q.
      destruct q as [a b]. unfold Qlt, Qmult, inject_Z. simpl.
      destruct a; lia.
    + assert (Hsame : (float_value (S754_finite false m e)
                       == inject_Z (Zpos m) * 2 ^ e)%Q).
      { cbn [float_value]. now rewrite Qmult_1_l. }
      rewrite Hsame.
      unfold in_unit_interval. change (SFltb float_0 (S754_finite false m e)) with true.
      cbn [andb]. rewrite (SFleb_float_1 m e Hvalid), <- scaled_mantissa_le_1.
      pose proof (scaled_mantissa_pos m e) as Hpos.
      split; [intros Hle; repeat split; assumption | intros [_ [_ Hle]]; exact Hle].
Qed.

Lemma NormalizedFloat_Ok (f : spec_float) :
  in_unit_interval f = true -> NormalizedFloat f = Ok f.
Proof.
  intros Hin. unfold NormalizedFloat. cbv zeta. now rewrite Hin.
Qed.

Lemma NormalizedFloat_Raise (f : spec_float) :
  in_unit_interval f = false ->
  NormalizedFloat f =
    Raise (ValueError
             [Lit "Invalid number. Expected a floating point value in the interval (0, 1]. Got ";
              FloatArg f; Lit "."]).
Proof.
  intros Hin. unfold NormalizedFloat. cbv zeta. now rewrite Hin.
Qed.

(** C4.  [NonNegativeInt(n)] is built exactly when [n >= 0] and
    [PositiveInt(n)] exactly when [n > 0]; for a binary64 value [f],
    [NormalizedFloat(f)] is built exactly when [f] is a finite number with
    [0 < f <= 1].  A value that is built is the argument itself; otherwise
    the constructor raises its out-of-range [ValueError] and returns
    nothing. *)
Theorem constrained_scalars_validate (n : Z) (f : spec_float) (Hf : binary64 f) :
  (succeeds (NonNegativeInt n) <-> 0 <= n) /\
  (0 <= n -> NonNegativeInt n = Ok n) /\
  (~ 0 <= n ->
   NonNegativeInt n =
     Raise (ValueError [Lit "Invalid number. Expected a non-negative integer. Got ";
                        IntArg n; Lit "."])) /\
  (succeeds (PositiveInt n) <-> 0 < n) /\
  (0 < n -> PositiveInt n = Ok n) /\
  (~ 0 < n ->
   PositiveInt n =
     Raise (ValueError [Lit "Invalid number. Expected a positive integer. Got ";
                        IntArg n; Lit "."])) /\
  (succeeds (NormalizedFloat f) <->
   is_finite f = true /\ (0 < float_value f)%Q /\ (float_value f <= 1)%Q) /\
  (is_finite f = true /\ (0 < float_value f)%Q /\ (float_value f <= 1)%Q ->
   NormalizedFloat f = Ok f) /\
  (~ (is_finite f = true /\ (0 < float_value f)%Q /\ (float_value f <= 1)%Q) ->
   NormalizedFloat f =
     Raise (ValueError
              [Lit "Invalid number. Expected a floating point value in the interval (0, 1]. Got ";
               FloatArg f; Lit "."])).
Proof.
  split; [|split; [|split]].
  - split.
    + intros [v Hv]. now apply NonNegativeInt_Ok_inv in Hv.
    + intros Hn. exists n. now apply NonNegativeInt_Ok.
  - apply NonNegativeInt_Ok.
  - intros Hn. apply NonNegativeInt_Raise. lia.
  - split; [|split; [|split]].
    + split.
      * intros [v Hv]. destruct (Z.lt_ge_cases 0 n) as [Hpos|Hneg]; [exact Hpos|].
        rewrite PositiveInt_Raise in Hv by lia. discriminate.
      * intros Hn. exists n. now apply PositiveInt_Ok.
    + apply PositiveInt_Ok.
    + intros Hn. apply PositiveInt_Raise. lia.
    + pose proof (in_unit_interval_value f Hf) as Hvalue.
      split; [|split].
      * rewrite <- Hvalue. split.
        -- intros [v Hv]. destruct (in_unit_interval f) eqn:Hin; [reflexivity|].
           rewrite NormalizedFloat_Raise in Hv by exact Hin. discriminate.
        -- intros Hin. exists f. now apply NormalizedFloat_Ok.
      * intros Hin. apply NormalizedFloat_Ok. now apply Hvalue.
      * intros Hout. apply NormalizedFloat_Raise.
        destruct (in_unit_interval f) eqn:Hin; [|reflexivity].
        exfalso. apply Hout. now apply Hvalue.
Qed.

(* ================================================================== *)
(** ** The statements at concrete inputs                               *)
(* ================================================================== *)

(** [--crop 1 2 3 4 --crop 5 6 7 8] with five input files. *)
Lemma parse_args_crop_tail_repetition_witness :
  exists ns it,
    parse_args (parser_defaults ["a.mkv"; "b.mkv"; "c.mkv"; "d.mkv"; "e.mkv"]
                                [[1; 2; 3; 4]; [5; 6; 7; 8]]) = Ok ns /\
    crop_values ns = Iterable_CropValues it /\
    itertools.islice it 5 =
      [mkCropValues 1 2 3 4; mkCropValues 5 6 7 8; mkCropValues 5 6 7 8;
       mkCropValues 5 6 7 8; mkCropValues 5 6 7 8].
Proof.
  destruct (parse_args_crop_tail_repetition
              (parser_defaults ["a.mkv"; "b.mkv"; "c.mkv"; "d.mkv"; "e.mkv"]
                               [[1; 2; 3; 4]; [5; 6; 7; 8]])
              [mkCropValues 1 2 3 4] (mkCropValues 5 6 7 8) eq_refl)
    as [ns [it [Hns [Hit [Hslice _]]]]].
  exists ns, it. split; [exact Hns|]. split; [exact Hit|]. exact Hslice.
Defined.

(** [--dump-commands only] with [keep_temp] left at [False]. *)
Lemma parse_args_forces_keep_temp_witness :
  exists ns,
    parse_args
      {| input_files := ["a.mkv"]; output_dir := None; temp_dir := None;
         keep_temp := false; force_overwrite := false;
         scene_cut_threshold := float_0_3; min_scene_length := 30;
         enable_single_pass_encode := false; encoder_parameters := "-crf 15";
         global_parameters := EmptyString; max_concurrent_encodes := 8;
         deinterlace := false; dump_commands := "only"; limit_encodes := None;
         crop_values := [[0; 0; 8; 8]]; verbose := false;
         cutelog_integration := false;
         ffmpeg := "ffmpeg"; ffprobe := "ffprobe"; ffmpeg_base := None |} = Ok ns /\
    keep_temp ns = true.
Proof.
  refine (proj2 (parse_args_forces_keep_temp _ _) _).
  - left. discriminate.
  - repeat constructor.
Defined.

(** No [--crop] and three input files. *)
Lemma parse_args_no_crop_markers_witness :
  exists ns it,
    parse_args (parser_defaults ["a.mkv"; "b.mkv"; "c.mkv"] []) = Ok ns /\
    crop_values ns = Iterable_None it /\
    itertools.yields it [tt; tt; tt].
Proof.
  destruct (parse_args_no_crop_markers
              (parser_defaults ["a.mkv"; "b.mkv"; "c.mkv"] []) eq_refl)
    as [ns [it [Hns [Hit [Hyields _]]]]].
  - simpl. lia.
  - exists ns, it. split; [exact Hns|]. split; [exact Hit|]. exact Hyields.
Defined.

(** Two specifications, index 7. *)
Lemma parse_args_crop_iterator_is_crop_for_witness :
  exists ns it c,
    parse_args (parser_defaults ["a.mkv"] [[1; 2; 3; 4]; [5; 6; 7; 8]]) = Ok ns /\
    crop_values ns = Iterable_CropValues it /\
    itertools.item it 7 = Some c /\
    crop_for [mkCropValues 1 2 3 4; mkCropValues 5 6 7 8] 7 = Ok c.
Proof.
  apply (parse_args_crop_iterator_is_crop_for
           (parser_defaults ["a.mkv"] [[1; 2; 3; 4]; [5; 6; 7; 8]])
           [mkCropValues 1 2 3 4; mkCropValues 5 6 7 8] 7%nat).
  - discriminate.
  - reflexivity.
Defined.

(** One [--crop 0 0 8 8] and two input files. *)
Lemma parse_args_never_raises_witness :
  succeeds (parse_args (parser_defaults ["a.mkv"; "b.mkv"] [[0; 0; 8; 8]])).
Proof.
  refine (proj1 (parse_args_never_raises _ _)).
  split; [repeat constructor | discriminate].
Defined.

Lemma parse_args_frame_witness :
  exists ns,
    parse_args (parser_defaults ["a.mkv"; "b.mkv"] [[0; 0; 8; 8]]) = Ok ns /\
    input_files ns = ["a.mkv"; "b.mkv"] /\
    dump_commands ns = "no".
Proof.
  destruct (parse_args_frame (parser_defaults ["a.mkv"; "b.mkv"] [[0; 0; 8; 8]]))
    as [ns [Hns [Hfiles Hrest]]].
  - split; [repeat constructor | discriminate].
  - exists ns. split; [exact Hns|]. split; [exact Hfiles|].
    apply Hrest.
Defined.

Lemma crop_dimensions_witness :
  exists c,
    CropValues_from_arguments 1 2 3 4 = Ok c /\ crop_height c = 3 /\ crop_width c = 7.
Proof.
  destruct (crop_dimensions 1 2 3 4) as [c [Hc [_ [_ [_ [_ [_ [Hh Hw]]]]]]]];
    try lia.
  exists c. split; [exact Hc|]. split; [exact Hh | exact Hw].
Defined.

Lemma crop_dimensions_nonnegative_witness :
  0 <= crop_height (mkCropValues 1 2 3 4) /\ 0 <= crop_width (mkCropValues 1 2 3 4).
Proof.
  apply crop_dimensions_nonnegative; reflexivity.
Defined.

(** [PositiveInt(0)] raises, [NonNegativeInt(0)] and [NormalizedFloat(0.3)]
    are built. *)
Lemma constrained_scalars_validate_witness :
  binary64 float_0_3 /\
  ~ succeeds (PositiveInt 0) /\ succeeds (NonNegativeInt 0) /\
  (succeeds (NormalizedFloat float_0_3) <->
   is_finite float_0_3 = true /\
   (0 < float_value float_0_3)%Q /\ (float_value float_0_3 <= 1)%Q).
Proof.
  assert (Hvalid : binary64 float_0_3) by (vm_compute; reflexivity).
  destruct (constrained_scalars_validate 0 float_0_3 Hvalid)
    as [Hnn [_ [_ [Hpos [_ [_ [Hfloat _]]]]]]].
  split; [exact Hvalid|]. split; [|split].
  - intros Hsucc. apply Hpos in Hsucc. lia.
  - apply Hnn. lia.
  - exact Hfloat.
Defined.

(* ================================================================== *)
(** ** Examples from the testable properties                           *)
(* ================================================================== *)

(** [--min-scene-length 0] is refused. *)
Example min_scene_length_0 :
  PositiveInt 0 =
    Raise (ValueError [Lit "Invalid number. Expected a positive integer. Got ";
                       IntArg 0; Lit "."]).
Proof. reflexivity. Qed.

(** The defaults of the constrained options pass their own checks. *)
Example defaults_are_valid :
  NormalizedFloat float_0_3 = Ok float_0_3 /\
  PositiveInt 30 = Ok 30 /\
  PositiveInt 8 = Ok 8.
Proof.
  repeat split; vm_compute; reflexivity.
Qed.

(** One specification and one input file: the sequence is [[C1]]. *)
Example single_crop_single_file (C1 : CropValues) :
  exists ns it,
    parse_args (parser_defaults ["a.mkv"] [tuple_of C1]) = Ok ns /\
    crop_values ns = Iterable_CropValues it /\
    map snd (itertools.zip (input_files ns) it) = [C1].
Proof.
  eexists. eexists.
  split; [apply (parse_args_crops _ [] C1); reflexivity|].
  split; reflexivity.
Qed.

(** [1.0] is accepted, the next binary64 value above it is not, nor are
    [0.0], infinity and NaN. *)
Example NormalizedFloat_boundaries :
  NormalizedFloat float_1 = Ok float_1 /\
  raises (NormalizedFloat (S754_finite false 4503599627370497 (-52))) /\
  raises (NormalizedFloat float_0) /\
  raises (NormalizedFloat (S754_infinity false)) /\
  raises (NormalizedFloat S754_nan).
Proof.
  split; [vm_compute; reflexivity|].
  repeat split; eexists; vm_compute; reflexivity.
Qed.

(* ================================================================== *)
(** ** parse_args: the value of keep_temp, failures, pairing           *)
(* ================================================================== *)

Lemma implied_keep_temp_value (parsed : RawNamespace) :
  keep_temp (implied_keep_temp parsed) = keep_temp_after parsed.
Proof.
  unfold implied_keep_temp, keep_temp_after.
  destruct (negb _ || _); reflexivity.
Qed.

Lemma parse_args_Ok_inv (parsed : RawNamespace) (ns : Namespace crop_iterable) :
  parse_args parsed = Ok ns ->
  exists c, ns = set_crop_values (implied_keep_temp parsed) c.
Proof.
  intros Hns. rewrite parse_args_steps in Hns.
  apply bind_Ok_inv in Hns. destruct Hns as [specs [_ Hns]].
  destruct (truthy specs).
  - apply bind_Ok_inv in Hns. destruct Hns as [last [_ Hns]].
    inversion Hns. eauto.
  - inversion Hns. eauto.
Qed.

(** X1.  [parse_args] never clears [keep_temp]: the returned value is
    [True] when [dump_commands] is not ["no"] or [limit_encodes] is set, and
    the parser's own value otherwise. *)
Theorem parse_args_keep_temp_value
  (parsed : RawNamespace) (ns : Namespace crop_iterable)
  (Hns : parse_args parsed = Ok ns) :
  keep_temp ns = keep_temp_after parsed /\
  (keep_temp parsed = true -> keep_temp ns = true) /\
  (dump_commands parsed = "no" -> limit_encodes parsed = None ->
   keep_temp ns = keep_temp parsed) /\
  (keep_temp ns = true <->
   keep_temp parsed = true \/ dump_commands parsed <> "no" \/
   limit_encodes parsed <> None).
Proof.
  destruct (parse_args_Ok_inv parsed ns Hns) as [c ->].
  cbn [keep_temp set_crop_values]. rewrite implied_keep_temp_value.
  unfold keep_temp_after.
  split; [reflexivity|].
  destruct (String.eqb_spec (dump_commands parsed) "no") as [Hno|Hother];
    destruct (limit_encodes parsed) as [p|] eqn:Hlimit;
    cbn [negb orb is_not_None]; (split; [|split]).
  - reflexivity.
  - discriminate.
  - split; [intros _; right; right; discriminate | reflexivity].
  - intros Hk; exact Hk.
  - reflexivity.
  - split; [intros Hk; now left|].
    intros [Hk|[Hd|Hl]]; [exact Hk | contradiction | contradiction].
  - reflexivity.
  - contradiction.
  - split; [intros _; right; now left | reflexivity].
  - reflexivity.
  - contradiction.
  - split; [intros _; right; now left | reflexivity].
Qed.

Lemma comprehension_CropValues_star_Ok
  (crops : list (list Z)) (specs : list CropValues) :
  comprehension CropValues_star crops = Ok specs -> crops = map tuple_of specs.
Proof.
  revert specs. induction crops as [|values crops IH]; intros specs Hpack;
    cbn [comprehension] in Hpack.
  - inversion Hpack. reflexivity.
  - apply bind_Ok_inv in Hpack. destruct Hpack as [c [Hc Hpack]].
    apply bind_Ok_inv in Hpack. destruct Hpack as [specs' [Hrest Hpack]].
    inversion Hpack; subst specs. cbn [map]. f_equal; [|now apply IH].
    destruct values as [|t [|b [|l [|r [|x values]]]]];
      cbn [CropValues_star] in Hc; try discriminate.
    inversion Hc. reflexivity.
Qed.

Lemma comprehension_CropValues_star_Raise (crops : list (list Z)) (e : exn) :
  comprehension CropValues_star crops = Raise e -> e = TypeError.
Proof.
  induction crops as [|values crops IH]; cbn [comprehension]; [discriminate|].
  destruct (CropValues_star values) as [c|e'] eqn:Hc; cbn [Py.bind].
  - destruct (comprehension CropValues_star crops) as [specs|e'']; cbn [Py.bind];
      [discriminate|].
    intros He. inversion He; subst e''. now apply IH.
  - intros He. inversion He; subst e'.
    destruct values as [|t [|b [|l [|r [|x values]]]]];
      cbn [CropValues_star] in Hc; congruence.
Qed.

Lemma four_values_decide (crops : list (list Z)) :
  Forall (fun values => List.length values = 4%nat) crops \/
  Exists (fun values => List.length values <> 4%nat) crops.
Proof.
  destruct (Forall_Exists_dec (fun values => List.length values = 4%nat)
              (fun values => Nat.eq_dec (List.length values) 4) crops)
    as [Hall|Hex]; [now left | now right].
Qed.

Lemma parse_args_Ok_four_values (parsed : RawNamespace) (ns : Namespace crop_iterable) :
  parse_args parsed = Ok ns -> four_values parsed.
Proof.
  intros Hns. rewrite parse_args_steps in Hns.
  apply bind_Ok_inv in Hns. destruct Hns as [specs [Hpack _]].
  apply comprehension_CropValues_star_Ok in Hpack.
  unfold four_values. rewrite Hpack.
  apply Forall_forall. intros values Hin.
  apply in_map_iff in Hin. destruct Hin as [c [<- _]]. reflexivity.
Qed.

(** X2.  [parse_args] fails only in [CropValues( *values )]: it raises exactly
    when some [--crop] entry of the parse result does not hold four values,
    the exception is then [TypeError], and it returns a namespace exactly
    when every entry holds four values. *)
Theorem parse_args_fails_only_on_arity (parsed : RawNamespace) :
  (succeeds (parse_args parsed) <-> four_values parsed) /\
  (raises (parse_args parsed) <->
   Exists (fun values => List.length values <> 4%nat) (crop_values parsed)) /\
  (forall e, parse_args parsed = Raise e -> e = TypeError).
Proof.
  assert (Hexcl : four_values parsed ->
                  Exists (fun values => List.length values <> 4%nat)
                    (crop_values parsed) -> False).
  { intros Hfour Hex. apply Exists_exists in Hex.
    destruct Hex as [values [Hin Hbad]].
    unfold four_values in Hfour. rewrite Forall_forall in Hfour.
    now apply Hbad, Hfour. }
  split; [|split].
  - split.
    + intros [ns Hns]. now apply parse_args_Ok_four_values in Hns.
    + intros Hfour. destruct (parse_args_total parsed Hfour) as [c Hc].
      eexists; exact Hc.
  - split.
    + intros [e He].
      destruct (four_values_decide (crop_values parsed)) as [Hfour|Hex];
        [|exact Hex].
      destruct (parse_args_total parsed Hfour) as [c Hc]. congruence.
    + intros Hex. destruct (parse_args parsed) as [ns|e] eqn:Hres;
        [|eexists; reflexivity].
      exfalso. apply parse_args_Ok_four_values in Hres. now apply Hexcl.
  - intros e He. rewrite parse_args_steps in He.
    destruct (comprehension CropValues_star (crop_values parsed))
      as [specs|e'] eqn:Hpack; cbn [Py.bind] in He.
    + exfalso. apply comprehension_CropValues_star_Ok in Hpack.
      assert (Hfour : four_values parsed).
      { unfold four_values. rewrite Hpack. apply Forall_forall.
        intros values Hin. apply in_map_iff in Hin.
        destruct Hin as [c [<- _]]. reflexivity. }
      destruct (parse_args_total parsed Hfour) as [c Hc].
      rewrite parse_args_steps in Hc.
      rewrite Hpack, comprehension_tuple_of in Hc. cbn [Py.bind] in Hc.
      congruence.
    + inversion He; subst e'.
      now apply comprehension_CropValues_star_Raise in Hpack.
Qed.

(* ================================================================== *)
(** ** The crop iterable in use                                        *)
(* ================================================================== *)

Section PairingFacts.

Context {A B : Type}.
Implicit Types (it : itertools.iter A) (xs : list B).

Lemma zip_length xs it :
  List.length (itertools.zip xs it)
  = List.length (itertools.islice it (List.length xs)).
Proof.
  rewrite <- (zip_islice xs it). now rewrite length_map.
Qed.

Lemma zip_fst xs it :
  map fst (itertools.zip xs it) = firstn (List.length (itertools.zip xs it)) xs.
Proof.
  revert it. induction xs as [|b xs IH]; intros it; cbn [itertools.zip].
  - reflexivity.
  - destruct (itertools.next it) as [[a it']|]; [|reflexivity].
    cbn [map fst List.length firstn]. now rewrite <- IH.
Qed.

Lemma firstn_min_length xs (n : nat) :
  firstn (Nat.min (List.length xs) n) xs = firstn n xs.
Proof.
  destruct (Nat.le_ge_cases n (List.length xs)) as [Hle|Hge].
  - now rewrite Nat.min_r.
  - rewrite Nat.min_l by exact Hge.
    now rewrite firstn_all, firstn_all2.
Qed.

End PairingFacts.

Lemma advance_repeat_times {A : Type} (x : A) (N n : nat) :
  itertools.advance (itertools.repeat x (Some N)) n
  = if (n <=? N)%nat then Some (itertools.repeat x (Some (N - n)%nat)) else None.
Proof.
  revert N. induction n as [|n IH]; intros N; cbn [itertools.advance].
  - now rewrite Nat.sub_0_r.
  - destruct N as [|N]; cbn [itertools.next]; [reflexivity|].
    rewrite IH. reflexivity.
Qed.

Lemma islice_repeat_exhausted {A : Type} (x : A) (m : nat) :
  itertools.islice (itertools.repeat x (Some 0%nat)) m = [].
Proof.
  destruct m; reflexivity.
Qed.

Lemma advance_chain_past_list {A : Type} (l : list A) (x : A) (n : nat) :
  (List.length l <= n)%nat ->
  exists it',
    itertools.advance
      (itertools.chain (itertools.list_iterator l) (itertools.repeat x None)) n
    = Some it' /\
    forall m, itertools.islice it' m = List.repeat x m.
Proof.
  revert n. induction l as [|y l IH]; intros n Hn.
  - destruct n as [|n]; cbn [itertools.advance itertools.next].
    + eexists. split; [reflexivity|]. intros m.
      rewrite islice_chain_list_repeat. cbn [List.length].
      now rewrite firstn_nil, Nat.sub_0_r.
    + rewrite advance_repeat_forever. eexists. split; [reflexivity|].
      apply islice_repeat_forever.
  - destruct n as [|n]; cbn [List.length] in Hn; [lia|].
    cbn [itertools.advance itertools.next]. apply IH. lia.
Qed.

Lemma parse_args_cases (parsed : RawNamespace) (ns : Namespace crop_iterable) :
  parse_args parsed = Ok ns ->
  (crop_values parsed = [] /\
   ns = set_crop_values (implied_keep_temp parsed)
          (Iterable_None
             (itertools.repeat tt (Some (List.length (input_files parsed))))))
  \/
  (exists front Ck,
      crop_values parsed = map tuple_of (front ++ [Ck]) /\
      ns = set_crop_values (implied_keep_temp parsed)
             (Iterable_CropValues
                (itertools.chain (itertools.list_iterator (front ++ [Ck]))
                                 (itertools.repeat Ck None)))).
Proof.
  intros Hns.
  pose proof (parse_args_Ok_four_values parsed ns Hns) as Hfour.
  destruct (four_values_tuples _ Hfour) as [specs Hspecs].
  destruct specs as [|c specs].
  - left. split; [exact Hspecs|].
    rewrite (parse_args_no_crop parsed Hspecs) in Hns. congruence.
  - right.
    destruct (nonempty_snoc (c :: specs)) as [front [Ck Hsnoc]]; [discriminate|].
    rewrite Hsnoc in Hspecs. exists front, Ck. split; [exact Hspecs|].
    rewrite (parse_args_crops parsed front Ck Hspecs) in Hns. congruence.
Qed.

(** X3.  Pairing the crop iterable of a returned namespace with a list by
    [zip]: when [--crop] was given, every element of the list gets a crop
    value, whatever the length of the list; when it was not, only the first
    [N] elements get a [None], [N] being the number of input files.  Paired
    with the input files themselves, no file is dropped in either case. *)
Theorem crop_iterable_pairing
  {B : Type} (parsed : RawNamespace) (ns : Namespace crop_iterable) (xs : list B)
  (Hns : parse_args parsed = Ok ns) :
  (crop_values parsed = [] <-> exists it, crop_values ns = Iterable_None it) /\
  match crop_values ns with
  | Iterable_CropValues it =>
      map fst (itertools.zip xs it) = xs /\
      map fst (itertools.zip (input_files ns) it) = input_files ns
  | Iterable_None it =>
      map fst (itertools.zip xs it)
      = firstn (List.length (input_files parsed)) xs /\
      List.length (itertools.zip xs it)
      = Nat.min (List.length xs) (List.length (input_files parsed)) /\
      map fst (itertools.zip (input_files ns) it) = input_files ns
  end.
Proof.
  destruct (parse_args_cases parsed ns Hns)
    as [[Hraw ->]|[front [Ck [Hraw ->]]]];
    cbn [crop_values set_crop_values input_files];
    rewrite ?implied_keep_temp_input_files.
  - split.
    { split; [intros _; eexists; reflexivity | intros _; exact Hraw]. }
    assert (Hlen : forall C (ys : list C),
               List.length (itertools.zip ys
                  (itertools.repeat tt (Some (List.length (input_files parsed)))))
               = Nat.min (List.length ys) (List.length (input_files parsed))).
    { intros C ys. rewrite zip_length.
      rewrite (yields_islice _ _ (yields_repeat_times tt _)).
      now rewrite length_firstn, repeat_length. }
    split; [|split].
    + now rewrite zip_fst, Hlen, firstn_min_length.
    + apply Hlen.
    + now rewrite zip_fst, Hlen, Nat.min_id, firstn_all.
  - split.
    { split.
      - intros Hnil. rewrite Hnil in Hraw.
        destruct front; discriminate.
      - intros [it Hit]. discriminate. }
    assert (Hlen : forall C (ys : list C),
               List.length (itertools.zip ys
                  (itertools.chain (itertools.list_iterator (front ++ [Ck]))
                                   (itertools.repeat Ck None)))
               = List.length ys).
    { intros C ys. rewrite zip_length, islice_chain_list_repeat.
      apply tail_repetition_length. }
    split; now rewrite zip_fst, Hlen, firstn_all.
Qed.

(** X4.  When [--crop] was given, the crop iterator never stops, every
    element it returns is one of the given specifications, and every given
    specification is returned, at its own position. *)
Theorem crop_iterator_yields_the_given_specs
  (parsed : RawNamespace) (specs : list CropValues)
  (Hne : specs <> [])
  (Hraw : crop_values parsed = map tuple_of specs) :
  exists ns it,
    parse_args parsed = Ok ns /\
    crop_values ns = Iterable_CropValues it /\
    (forall i : nat, exists c, itertools.item it i = Some c /\ In c specs) /\
    (forall (i : nat) (c : CropValues),
        nth_error specs i = Some c -> itertools.item it i = Some c) /\
    (forall c : CropValues,
        In c specs -> exists i : nat, itertools.item it i = Some c).
Proof.
  destruct (nonempty_snoc specs Hne) as [front [Ck Hsnoc]]. subst specs.
  eexists. eexists.
  split; [now apply parse_args_crops with (front := front) (Ck := Ck)|].
  split; [reflexivity|].
  split; [|split].
  - intros i. rewrite item_chain_list_repeat. eexists. split; [reflexivity|].
    destruct (Nat.lt_ge_cases i (List.length (front ++ [Ck]))) as [Hlt|Hge].
    + now apply nth_In.
    + rewrite nth_overflow by exact Hge. apply in_or_app. right. now left.
  - intros i c Hnth. rewrite item_chain_list_repeat. f_equal.
    now apply nth_error_nth.
  - intros c Hin. apply In_nth_error in Hin. destruct Hin as [i Hi].
    exists i. rewrite item_chain_list_repeat. f_equal.
    now apply nth_error_nth.
Qed.

(** X5.  The crop iterable is consumed by use.  Without [--crop], after one
    element per input file it is exhausted: a second pass returns nothing.
    With [--crop], once the given specifications have been returned every
    later element, in this pass or a later one, is the last specification. *)
Theorem crop_iterable_after_consumption
  (parsed : RawNamespace) (ns : Namespace crop_iterable)
  (Hns : parse_args parsed = Ok ns) :
  match crop_values ns with
  | Iterable_None it =>
      (exists it',
          itertools.advance it (List.length (input_files parsed)) = Some it' /\
          itertools.next it' = None /\
          forall m, itertools.islice it' m = []) /\
      (forall n, (List.length (input_files parsed) < n)%nat ->
                 itertools.advance it n = None)
  | Iterable_CropValues it =>
      exists Ck,
        getitem (crop_values parsed) (-1) = Ok (tuple_of Ck) /\
        forall n, (List.length (crop_values parsed) <= n)%nat ->
                  exists it',
                    itertools.advance it n = Some it' /\
                    forall m, itertools.islice it' m = List.repeat Ck m
  end.
Proof.
  destruct (parse_args_cases parsed ns Hns)
    as [[Hraw ->]|[front [Ck [Hraw ->]]]];
    cbn [crop_values set_crop_values].
  - split.
    + eexists. rewrite advance_repeat_times, Nat.leb_refl, Nat.sub_diag.
      split; [reflexivity|]. split; [reflexivity|].
      apply islice_repeat_exhausted.
    + intros n Hn. rewrite advance_repeat_times.
      destruct (Nat.leb_spec n (List.length (input_files parsed))); [lia|reflexivity].
  - exists Ck. split.
    + rewrite Hraw, map_app. cbn [map]. apply getitem_minus_1.
    + intros n Hn. apply advance_chain_past_list.
      rewrite Hraw, length_map in Hn. exact Hn.
Qed.

(* ================================================================== *)
(** ** CropValues and the constrained scalars in composition           *)
(* ================================================================== *)


(** X7.  Every value that [PositiveInt] accepts is accepted by
    [NonNegativeInt]; the only value that [NonNegativeInt] accepts and
    [PositiveInt] refuses is 0; and [PositiveInt] accepts [n] exactly when
    [NonNegativeInt] accepts [n - 1]. *)
Theorem PositiveInt_within_NonNegativeInt (n : Z) :
  (succeeds (PositiveInt n) -> NonNegativeInt n = Ok n) /\
  (succeeds (NonNegativeInt n) /\ raises (PositiveInt n) <-> n = 0) /\
  (succeeds (PositiveInt n) <-> succeeds (NonNegativeInt (n - 1))).
Proof.
  assert (Hpos : succeeds (PositiveInt n) <-> 0 < n).
  { split.
    - intros [v Hv]. destruct (Z.lt_ge_cases 0 n) as [Hn|Hn]; [exact Hn|].
      rewrite PositiveInt_Raise in Hv by lia. discriminate.
    - intros Hn. exists n. now apply PositiveInt_Ok. }
  assert (Hnn : forall k, succeeds (NonNegativeInt k) <-> 0 <= k).
  { intros k. split.
    - intros [v Hv]. now apply NonNegativeInt_Ok_inv in Hv.
    - intros Hk. exists k. now apply NonNegativeInt_Ok. }
  split; [|split].
  - intros Hsucc. apply NonNegativeInt_Ok. apply Hpos in Hsucc. lia.
  - split.
    + intros [Hsucc [e He]]. apply Hnn in Hsucc.
      destruct (Z.lt_ge_cases 0 n) as [Hn|Hn]; [|lia].
      rewrite PositiveInt_Ok in He by exact Hn. discriminate.
    + intros ->. split; [exists 0; reflexivity | eexists; reflexivity].
  - rewrite Hpos, Hnn. lia.
Qed.

(** X8.  Validating a value a second time changes nothing: for each of the
    three constrained types, the constructor applied to its own result
    returns that result, and a refused argument is refused with the same
    exception. *)
Theorem constrained_scalars_revalidate (n : Z) (f : spec_float) :
  (v <- NonNegativeInt n ;; NonNegativeInt v) = NonNegativeInt n /\
  (v <- PositiveInt n ;; PositiveInt v) = PositiveInt n /\
  (v <- NormalizedFloat f ;; NormalizedFloat v) = NormalizedFloat f /\
  (v <- PositiveInt n ;; NonNegativeInt v) = PositiveInt n.
Proof.
  split; [|split; [|split]].
  - destruct (Z.lt_ge_cases n 0) as [Hn|Hn].
    + now rewrite (NonNegativeInt_Raise n Hn).
    + rewrite (NonNegativeInt_Ok n Hn). cbn [Py.bind].
      now apply NonNegativeInt_Ok.
  - destruct (Z.lt_ge_cases 0 n) as [Hn|Hn].
    + rewrite (PositiveInt_Ok n Hn). cbn [Py.bind]. now apply PositiveInt_Ok.
    + now rewrite PositiveInt_Raise by lia.
  - destruct (in_unit_interval f) eqn:Hin.
    + rewrite (NormalizedFloat_Ok f Hin). cbn [Py.bind].
      now apply NormalizedFloat_Ok.
    + now rewrite (NormalizedFloat_Raise f Hin).
  - destruct (Z.lt_ge_cases 0 n) as [Hn|Hn].
    + rewrite (PositiveInt_Ok n Hn). cbn [Py.bind].
      apply NonNegativeInt_Ok. lia.
    + now rewrite PositiveInt_Raise by lia.
Qed.

Lemma CropValues_from_arguments_Ok_inv (t b l r : Z) (c : CropValues) :
  CropValues_from_arguments t b l r = Ok c ->
  c = mkCropValues t b l r /\ 0 <= t /\ 0 <= b /\ 0 <= l /\ 0 <= r.
Proof.
  unfold CropValues_from_arguments, NonNegativeInt_each. cbn [comprehension].
  intros Hc.
  destruct (NonNegativeInt t) as [t'|] eqn:Et; [|discriminate].
  destruct (NonNegativeInt b) as [b'|] eqn:Eb; [|discriminate].
  destruct (NonNegativeInt l) as [l'|] eqn:El; [|discriminate].
  destruct (NonNegativeInt r) as [r'|] eqn:Er; [|discriminate].
  apply NonNegativeInt_Ok_inv in Et, Eb, El, Er.
  destruct Et as [-> Ht], Eb as [-> Hb], El as [-> Hl], Er as [-> Hr].
  simpl in Hc. inversion Hc. auto.
Qed.

(** X9.  In a crop specification built from argument values that passed
    [NonNegativeInt] no side exceeds the total of its direction, and a total
    is zero only when both of its sides are zero. *)
Theorem crop_sides_within_totals (t b l r : Z) (c : CropValues)
  (Hc : CropValues_from_arguments t b l r = Ok c) :
  0 <= top c <= crop_height c /\
  0 <= bottom c <= crop_height c /\
  0 <= left c <= crop_width c /\
  0 <= right c <= crop_width c /\
  (crop_height c = 0 <-> top c = 0 /\ bottom c = 0) /\
  (crop_width c = 0 <-> left c = 0 /\ right c = 0).
Proof.
  apply CropValues_from_arguments_Ok_inv in Hc.
  destruct Hc as [-> [Ht [Hb [Hl Hr]]]].
  unfold crop_height, crop_width. cbn [top bottom left right]. lia.
Qed.


(* ================================================================== *)
(** ** The option schema and the Namespace class                       *)
(* ================================================================== *)

Lemma names_distinct_NoDup (l : list string) :
  names_distinct l = true -> NoDup l.
Proof.
  induction l as [|x l IH]; cbn [names_distinct]; intros Hd; [constructor|].
  apply andb_prop in Hd. destruct Hd as [Hx Hl].
  constructor; [|now apply IH].
  intros Hin. apply negb_true_iff in Hx.
  assert (Hex : existsb (String.eqb x) l = true).
  { apply existsb_exists. exists x. split; [exact Hin | apply String.eqb_refl]. }
  congruence.
Qed.

Lemma names_included_In (l1 l2 : list string) :
  names_included l1 l2 = true -> forall x, In x l1 -> In x l2.
Proof.
  unfold names_included. intros Hinc x Hin.
  rewrite forallb_forall in Hinc. specialize (Hinc x Hin).
  apply existsb_exists in Hinc. destruct Hinc as [y [Hy Heq]].
  apply String.eqb_eq in Heq. now subst y.
Qed.

(** X11.  The option schema and the [Namespace] class: the parser sets each
    attribute once; the attributes it sets are the fields of [Namespace]
    except [max_scene_length], which no option sets; every attribute that
    [parse_args] touches is set by the parser; and no two options, the
    automatic [-h] and [--help] included, share an option string. *)
Theorem option_schema_matches_Namespace :
  NoDup (argparse.attributes _generate_argument_parser) /\
  (forall name,
      In name (argparse.attributes _generate_argument_parser) <->
      In name Namespace_fields /\ name <> "max_scene_length") /\
  (forall name,
      In name parse_args_attributes ->
      In name (argparse.attributes _generate_argument_parser)) /\
  NoDup ("-h" :: "--help" :: argparse.option_strings _generate_argument_parser).
Proof.
  split; [|split; [|split]].
  - apply names_distinct_NoDup. vm_compute. reflexivity.
  - intros name.
    pose (others := filter (fun f => negb (f =? "max_scene_length")%string)
                           Namespace_fields).
    assert (Hothers : In name others <->
                      In name Namespace_fields /\ name <> "max_scene_length").
    { unfold others. rewrite filter_In, negb_true_iff, String.eqb_neq.
      reflexivity. }
    rewrite <- Hothers. split.
    + apply names_included_In. vm_compute. reflexivity.
    + apply names_included_In. vm_compute. reflexivity.
  - apply names_included_In. vm_compute. reflexivity.
  - apply names_distinct_NoDup. vm_compute. reflexivity.
Qed.

(** X12.  Every default of the option schema is a value that the option
    could also have received from the command line: the defaults of the
    options typed [PositiveInt], [NonNegativeInt] or [NormalizedFloat] pass
    these constructors, and the default of [--dump-commands] is one of its
    choices. *)
Theorem option_schema_defaults_in_range :
  Forall default_in_range _generate_argument_parser /\
  (forall a n,
      In a _generate_argument_parser ->
      argparse.arg_type a = Some argparse.type_PositiveInt ->
      argparse.arg_default a = Some (argparse.default_int n) ->
      0 < n) /\
  (forall a f,
      In a _generate_argument_parser ->
      argparse.arg_type a = Some argparse.type_NormalizedFloat ->
      argparse.arg_default a = Some (argparse.default_float f) ->
      is_finite f = true /\ (0 < float_value f)%Q /\ (float_value f <= 1)%Q).
Proof.
  assert (Hall : Forall default_in_range _generate_argument_parser).
  { unfold _generate_argument_parser.
    repeat (apply Forall_cons;
            [split; cbn; try exact I; try (vm_compute; reflexivity);
             try (right; left; reflexivity); try constructor|]).
    apply Forall_nil. }
  split; [exact Hall|]. rewrite Forall_forall in Hall.
  split.
  - intros a n Hin Hty Hdef. destruct (Hall a Hin) as [Hrange _].
    rewrite Hty, Hdef in Hrange.
    destruct (Z.lt_ge_cases 0 n) as [Hn|Hn]; [exact Hn|].
    rewrite PositiveInt_Raise in Hrange by lia. discriminate.
  - intros a f Hin Hty Hdef. destruct (Hall a Hin) as [Hrange _].
    rewrite Hty, Hdef in Hrange.
    assert (Hf : f = float_0_3).
    { unfold _generate_argument_parser in Hin. cbn [In] in Hin.
      repeat (destruct Hin as [<-|Hin];
              [cbn in Hty, Hdef; try discriminate; try congruence|]).
      contradiction. }
    subst f. apply in_unit_interval_value; [vm_compute; reflexivity|].
    vm_compute. reflexivity.
Qed.

(* ================================================================== *)
(** ** Further statements at concrete inputs                           *)
(* ================================================================== *)

(** Only input files on the command line: [keep_temp] stays [False]. *)
Lemma parse_args_keep_temp_value_witness :
  exists ns,
    parse_args (parser_defaults ["a.mkv"] []) = Ok ns /\
    keep_temp ns = false.
Proof.
  eexists. split; [reflexivity|].
  exact (proj1 (proj2 (proj2 (parse_args_keep_temp_value
                                (parser_defaults ["a.mkv"] []) _ eq_refl)))
           eq_refl eq_refl).
Defined.

(** No [--crop], two input files, paired with a list of five. *)
Lemma crop_iterable_pairing_witness :
  exists ns it,
    parse_args (parser_defaults ["a.mkv"; "b.mkv"] []) = Ok ns /\
    crop_values ns = Iterable_None it /\
    map fst (itertools.zip [1; 2; 3; 4; 5] it) = [1; 2].
Proof.
  eexists. eexists. split; [reflexivity|]. split; [reflexivity|].
  exact (proj1 (proj2 (crop_iterable_pairing
                         (parser_defaults ["a.mkv"; "b.mkv"] []) _
                         [1; 2; 3; 4; 5] eq_refl))).
Defined.

Lemma crop_iterator_yields_the_given_specs_witness :
  exists ns it,
    parse_args (parser_defaults ["a.mkv"] [[1; 2; 3; 4]; [5; 6; 7; 8]]) = Ok ns /\
    crop_values ns = Iterable_CropValues it /\
    exists i : nat, itertools.item it i = Some (mkCropValues 5 6 7 8).
Proof.
  destruct (crop_iterator_yields_the_given_specs
              (parser_defaults ["a.mkv"] [[1; 2; 3; 4]; [5; 6; 7; 8]])
              [mkCropValues 1 2 3 4; mkCropValues 5 6 7 8])
    as [ns [it [Hns [Hit [_ [_ Hall]]]]]].
  - discriminate.
  - reflexivity.
  - exists ns, it. split; [exact Hns|]. split; [exact Hit|].
    apply Hall. right. left. reflexivity.
Defined.

(** No [--crop], two input files: after two elements nothing is left. *)
Lemma crop_iterable_after_consumption_witness :
  exists it',
    itertools.advance (itertools.repeat tt (Some 2%nat)) 2 = Some it' /\
    itertools.next it' = None /\
    forall m, itertools.islice it' m = [].
Proof.
  exact (proj1 (crop_iterable_after_consumption
                  (parser_defaults ["a.mkv"; "b.mkv"] []) _ eq_refl)).
Defined.

Lemma crop_sides_within_totals_witness :
  0 <= top (mkCropValues 1 2 3 4) <= crop_height (mkCropValues 1 2 3 4).
Proof.
  exact (proj1 (crop_sides_within_totals 1 2 3 4 (mkCropValues 1 2 3 4) eq_refl)).
Defined.

